(** * Internship-training: the two browser demos

    Two unrelated programs are verified here.

    - [Demo] embeds [src/ThreeJS/Demo/src/script.js], the three.js sphere
      showcase: its resize, pointer-move and scroll handlers and its
      per-frame [tick].
    - [XR] embeds the WebXR sample (class [App]): capability probe, session
      life cycle, per-frame callback and model placement.

    JavaScript numbers are IEEE 754 binary64 values, so they are modelled
    by Rocq's primitive floats: a decimal literal denotes the nearest
    binary64 value in both languages. *)

From Stdlib Require Import Floats.
From stdpp Require Import gmap strings list.

Set Warnings "-inexact-float".

(** ** Values shared by both programs *)

(** [THREE.Vector3]. *)
Record Vector3 := mkVector3 { v_x : float; v_y : float; v_z : float }.

(** [THREE.Euler], the [rotation] property of an [Object3D]. *)
Record Euler := mkEuler { r_x : float; r_y : float; r_z : float }.

(** [Math.min] on two numbers: NaN if either is NaN, and -0 below +0. *)
Definition Math_min (a b : float) : float :=
  if (is_nan a || is_nan b)%bool then nan
  else if (a <? b)%float then a
  else if (b <? a)%float then b
  else if (is_zero a && get_sign a)%bool then a
  else b.

(** ** The scene animation controller ([script.js]) *)

Module Demo.

Local Open Scope float_scope.

(** The sphere mesh: the two properties the handlers and [tick] touch. *)
Record Mesh := mkMesh { position : Vector3; rotation : Euler }.

(** The [sizes] object. *)
Record Sizes := mkSizes { width : float; height : float }.

(** [THREE.PerspectiveCamera]: the constructor arguments, the position and
    the aspect ratio for which the projection matrix was last rebuilt by
    [updateProjectionMatrix]. *)
Record PerspectiveCamera := mkCamera {
  fov : float;
  aspect : float;
  near : float;
  far : float;
  cam_position : Vector3;
  projection_aspect : float
}.

(** [THREE.WebGLRenderer]: the logical size given to [setSize], the
    pixel ratio given to [setPixelRatio], and how many times [render] ran. *)
Record WebGLRenderer := mkRenderer {
  size_width : float;
  size_height : float;
  pixelRatio : float;
  rendered : nat
}.

(** What the handlers read from [window] when they run. *)
Record Window := mkWindow {
  innerWidth : float;
  innerHeight : float;
  devicePixelRatio : float;
  scrollY : float
}.

(** A [mousemove] event. *)
Record MouseEvent := mkMouseEvent { clientX : float; clientY : float }.

(** The module-level bindings of the script. [frames_requested] counts the
    calls to [window.requestAnimationFrame]. *)
Record State := mkState {
  sphere : Mesh;
  sizes : Sizes;
  camera : PerspectiveCamera;
  renderer : WebGLRenderer;
  mouseX : float;
  mouseY : float;
  targetX : float;
  targetY : float;
  windowX : float;
  windowY : float;
  frames_requested : nat
}.

Definition updateProjectionMatrix (c : PerspectiveCamera) : PerspectiveCamera :=
  mkCamera (fov c) (aspect c) (near c) (far c) (cam_position c) (aspect c).

Definition setSize (w h : float) (r : WebGLRenderer) : WebGLRenderer :=
  mkRenderer w h (pixelRatio r) (rendered r).

Definition setPixelRatio (p : float) (r : WebGLRenderer) : WebGLRenderer :=
  mkRenderer (size_width r) (size_height r) p (rendered r).

Definition render (r : WebGLRenderer) : WebGLRenderer :=
  mkRenderer (size_width r) (size_height r) (pixelRatio r) (S (rendered r)).

(** The script's top level, up to the first call of [tick]: the sphere at
    the origin, the camera at z = 2 with the viewport's aspect ratio, the
    renderer sized to the viewport, the pointer offsets at zero. *)
Definition start (w : Window) : State :=
  let sz := mkSizes (innerWidth w) (innerHeight w) in
  {| sphere := mkMesh (mkVector3 0 0 0) (mkEuler 0 0 0);
     sizes := sz;
     camera := mkCamera 75 (width sz / height sz) 0.1 100 (mkVector3 0 0 2)
                 (width sz / height sz);
     renderer := setPixelRatio (Math_min (devicePixelRatio w) 2)
                   (setSize (width sz) (height sz) (mkRenderer 0 0 1 0));
     mouseX := 0; mouseY := 0; targetX := 0; targetY := 0;
     windowX := innerWidth w / 2; windowY := innerHeight w / 2;
     frames_requested := 0 |}.

(** The [resize] listener (lines 84-96). *)
Definition onResize (w : Window) (s : State) : State :=
  let sz := mkSizes (innerWidth w) (innerHeight w) in
  let cam := mkCamera (fov (camera s)) (width sz / height sz) (near (camera s))
               (far (camera s)) (cam_position (camera s))
               (projection_aspect (camera s)) in
  {| sphere := sphere s;
     sizes := sz;
     camera := updateProjectionMatrix cam;
     renderer := setPixelRatio (Math_min (devicePixelRatio w) 2)
                   (setSize (width sz) (height sz) (renderer s));
     mouseX := mouseX s; mouseY := mouseY s;
     targetX := targetX s; targetY := targetY s;
     windowX := windowX s; windowY := windowY s;
     frames_requested := frames_requested s |}.

(** The [mousemove] listener (lines 140-143). *)
Definition onMouseMove (ev : MouseEvent) (s : State) : State :=
  {| sphere := sphere s; sizes := sizes s; camera := camera s;
     renderer := renderer s;
     mouseX := clientX ev - windowX s;
     mouseY := clientY ev - windowY s;
     targetX := targetX s; targetY := targetY s;
     windowX := windowX s; windowY := windowY s;
     frames_requested := frames_requested s |}.

(** The [scroll] listener (lines 145-147). *)
Definition onScroll (w : Window) (s : State) : State :=
  let p := position (sphere s) in
  {| sphere := mkMesh (mkVector3 (v_x p) (scrollY w * 0.001) (v_z p))
                 (rotation (sphere s));
     sizes := sizes s; camera := camera s; renderer := renderer s;
     mouseX := mouseX s; mouseY := mouseY s;
     targetX := targetX s; targetY := targetY s;
     windowX := windowX s; windowY := windowY s;
     frames_requested := frames_requested s |}.

(** [tick] (lines 151-173), with the value [clock.getElapsedTime()]
    returns as its argument. The four assignments to the sphere are kept
    in the order of the source: each reads what the previous ones wrote. *)
Definition tick (elapsedTime : float) (s : State) : State :=
  let targetX' := mouseX s * 0.001 in
  let targetY' := mouseY s * 0.001 in
  let p := position (sphere s) in
  let r := rotation (sphere s) in
  let ry1 := 0.5 * elapsedTime in
  let rx1 := r_x r + 0.05 * (targetY' - r_x r) in
  let ry2 := ry1 + 0.5 * (targetX' - ry1) in
  let pz1 := v_z p + (- 0.05) * (targetY' - rx1) in
  {| sphere := mkMesh (mkVector3 (v_x p) (v_y p) pz1) (mkEuler rx1 ry2 (r_z r));
     sizes := sizes s; camera := camera s;
     renderer := render (renderer s);
     mouseX := mouseX s; mouseY := mouseY s;
     targetX := targetX'; targetY := targetY';
     windowX := windowX s; windowY := windowY s;
     frames_requested := S (frames_requested s) |}.

(** The events the page delivers to the script. *)
Inductive Event :=
| Resize (w : Window)
| MouseMove (ev : MouseEvent)
| Scroll (w : Window)
| AnimationFrame (elapsedTime : float).

Definition handle (e : Event) (s : State) : State :=
  match e with
  | Resize w => onResize w s
  | MouseMove ev => onMouseMove ev s
  | Scroll w => onScroll w s
  | AnimationFrame t => tick t s
  end.

Definition run (es : list Event) (s : State) : State :=
  foldl (fun acc e => handle e acc) s es.

(** What has to follow the viewport: the camera's aspect ratio, the
    ratio the projection matrix was built for, the renderer's size and
    the [sizes] object. *)
Definition viewport_state (s : State)
  : float * float * float * float * Sizes :=
  (aspect (camera s), projection_aspect (camera s),
   size_width (renderer s), size_height (renderer s), sizes s).

(** A 1280 x 720 window at pixel ratio 1, not scrolled. *)
Definition window0 : Window := mkWindow 1280 720 1 0.

(** The same window scrolled down by 1000 pixels. *)
Definition scrolled : Window := mkWindow 1280 720 1 1000.

(** The pointer at (740, 460): 100 pixels right of and below the centre. *)
Definition pointer : MouseEvent := mkMouseEvent 740 460.

(** The script just after that pointer move. *)
Definition pointed : State := onMouseMove pointer (start window0).

(** *** What a sequence of events leaves behind *)

(** The window of the last resize among the events, the last pointer
    move and the window of the last scroll, if any. *)
Fixpoint last_resize (es : list Event) : option Window :=
  match es with
  | [] => None
  | e :: rest =>
      match last_resize rest, e with
      | Some w, _ => Some w
      | None, Resize w => Some w
      | None, _ => None
      end
  end.

Fixpoint last_move (es : list Event) : option MouseEvent :=
  match es with
  | [] => None
  | e :: rest =>
      match last_move rest, e with
      | Some ev, _ => Some ev
      | None, MouseMove ev => Some ev
      | None, _ => None
      end
  end.

Fixpoint last_scroll (es : list Event) : option Window :=
  match es with
  | [] => None
  | e :: rest =>
      match last_scroll rest, e with
      | Some w, _ => Some w
      | None, Scroll w => Some w
      | None, _ => None
      end
  end.

Definition is_frame (e : Event) : bool :=
  match e with AnimationFrame _ => true | _ => false end.

(** The number of animation frames among the events. *)
Definition frames (es : list Event) : nat := length (filter is_frame es).

(** The device pixel ratio of the window is a number, in every resize. *)
Definition ratio_is_number (e : Event) : bool :=
  match e with
  | Resize w => negb (is_nan (devicePixelRatio w))
  | _ => true
  end.

(** The centre the pointer offsets are measured from, the sphere's x
    coordinate and its rotation about z. *)
Definition fixed_part (s : State) : float * float * float * float :=
  (windowX s, windowY s, v_x (position (sphere s)), r_z (rotation (sphere s))).

(** Running a handler if there is an event for it. *)
Definition apply_last {A} (h : A → State → State) (o : option A) (s : State)
  : State :=
  match o with Some a => h a s | None => s end.

End Demo.

(** ** The XR session controller (class [App]) *)

Module XR.

Local Open Scope float_scope.

(** *** Values of the platform and of the rendering library *)

(** A 4x4 matrix as sixteen numbers in column-major order. It is both the
    [Float32Array(16)] the platform hands over and the [elements] of a
    [THREE.Matrix4]; the translation is in elements 12, 13 and 14. *)
Record Matrix4 := mkMatrix4 {
  m0 : float; m1 : float; m2 : float; m3 : float;
  m4 : float; m5 : float; m6 : float; m7 : float;
  m8 : float; m9 : float; m10 : float; m11 : float;
  m12 : float; m13 : float; m14 : float; m15 : float
}.

Definition Matrix4_identity : Matrix4 :=
  mkMatrix4 1 0 0 0  0 1 0 0  0 0 1 0  0 0 0 1.

(** [new THREE.Matrix4().fromArray(array)]: the sixteen numbers, copied. *)
Definition Matrix4_fromArray (array : Matrix4) : Matrix4 :=
  mkMatrix4 (m0 array) (m1 array) (m2 array) (m3 array)
            (m4 array) (m5 array) (m6 array) (m7 array)
            (m8 array) (m9 array) (m10 array) (m11 array)
            (m12 array) (m13 array) (m14 array) (m15 array).

(** [Vector3.setFromMatrixPosition(m)]: elements 12, 13, 14. *)
Definition setFromMatrixPosition (m : Matrix4) : Vector3 :=
  mkVector3 (m12 m) (m13 m) (m14 m).

Record Quaternion := mkQuaternion {
  q_x : float; q_y : float; q_z : float; q_w : float
}.

Definition Quaternion_identity : Quaternion := mkQuaternion 0 0 0 1.

Record Viewport := mkViewport {
  vp_x : float; vp_y : float; vp_width : float; vp_height : float
}.

(** An [XRSession]: which session it is, and whether the application
    stored a layer in its [baseLayer] property. *)
Record XRSession := mkXRSession { session_id : nat; baseLayer : bool }.

Record XRReferenceSpace := mkXRReferenceSpace { space_id : nat }.

(** A pose the platform reports; the application only tests it for null. *)
Record XRPose := mkXRPose { pose_transform : Matrix4 }.

(** One [XRView] of a viewer pose, with the viewport
    [session.renderState.baseLayer.getViewport(view)] gives for it. *)
Record XRView := mkXRView {
  view_projectionMatrix : Matrix4;
  view_inverse_matrix : Matrix4;
  view_viewport : Viewport
}.

Record XRViewerPose := mkXRViewerPose { views : list XRView }.

(** An input source, with the pose [frame.getPose] gives for its
    [targetRaySpace] in this frame ([None] for null). *)
Record XRInputSource := mkXRInputSource {
  targetRayMode : string;
  targetRayPose : option XRPose
}.

(** What [onXRFrame] reads from the frame it is called with. *)
Record XRFrame := mkXRFrame {
  hasGetDevicePose : bool;
  devicePose : option XRPose;
  viewerPose : option XRViewerPose;
  inputSources : list XRInputSource
}.

(** One entry of a hit-test result. *)
Record XRHitResult := mkXRHitResult { hitMatrix : Matrix4 }.

Definition Error := string.

(** How the awaited [requestHitTest] ends: with the list of hits, nearest
    first, or by throwing or rejecting. *)
Inductive HitTestOutcome :=
| HitTestResolved (hits : list XRHitResult)
| HitTestFailed (e : Error).

(** How a promise of the platform settles. *)
Inductive Settled (A : Type) :=
| Resolved (a : A)
| Rejected (e : Error).
Arguments Resolved {A} a.
Arguments Rejected {A} e.

(** [THREE.Ray], and the [XRRay] built from one. *)
Record Ray := mkRay { origin : Vector3; direction : Vector3 }.

Record XRRay := mkXRRay { ray_origin : Vector3; ray_direction : Vector3 }.

(** *** Objects the application creates *)

(** The renderer; [vr_session] names the session [renderer.vr] is bound
    to by its [session_id]. *)
Record WebGLRenderer := mkWebGLRenderer {
  autoClear : bool;
  vr_enabled : bool;
  vr_referenceSpaceType : option string;
  vr_session : option nat;
  viewport : option Viewport;
  render_count : nat
}.

(** The children of the scene are named, not copied: the objects
    themselves stay in the fields of the application. *)
Inductive ObjectRef := ReticleRef | ModelRef.

#[global] Instance ObjectRef_eq_dec : EqDecision ObjectRef.
Proof. solve_decision. Defined.

Record Pivot := mkPivot { pivot_rotation : Euler }.

(** A [THREE.Scene], with the [pivot] property [placeModel] looks for. *)
Record Scene := mkScene { children : list ObjectRef; pivot : option Pivot }.

(** [scene.add(object)]: the object leaves its place among the children,
    if it had one, and is pushed at the end. *)
Definition Scene_add (o : ObjectRef) (sc : Scene) : Scene :=
  mkScene (filter (λ c, c ≠ o) (children sc) ++ [o]) (pivot sc).

(** The placed model. *)
Record Mesh := mkMesh { position : Vector3; quaternion : Quaternion }.

Record PerspectiveCamera := mkPerspectiveCamera {
  matrixAutoUpdate : bool;
  projectionMatrix : Matrix4;
  matrix : Matrix4;
  matrixWorld : Matrix4
}.

(** The reticle: the one property [onXRFrame] reads. *)
Record Reticle := mkReticle { visible : bool }.

(** A [THREE.Raycaster]; [None] is the ray of a raycaster that
    [setFromCamera] has not been called on. *)
Record Raycaster := mkRaycaster { ray : option Ray }.

(** The numeric kernels of three.js and the [Reticle] class of
    [shared/utils.js] are not part of the sources; the application is
    verified for whatever they compute.

    - [Matrix4_getInverse m]: the elements [getInverse(m)] stores.
    - [PerspectiveCamera_projection]: the projection matrix of a camera
      built with no arguments.
    - [Object3D_lookAt p t]: the quaternion [lookAt] gives an object at
      world position [p], child of an untransformed scene, for target [t].
    - [Object3D_rotateY q a]: the quaternion after [rotateY(a)].
    - [Raycaster_setFromCamera x y cam]: the ray [setFromCamera] stores.
    - [Reticle_new], [Reticle_update]: the reticle built for a camera, and
      what the call of [update] itself leaves of it. *)
Class Library := {
  Matrix4_getInverse : Matrix4 → Matrix4;
  PerspectiveCamera_projection : Matrix4;
  Object3D_lookAt : Vector3 → Vector3 → Quaternion;
  Object3D_rotateY : Quaternion → float → Quaternion;
  Raycaster_setFromCamera : float → float → option PerspectiveCamera → Ray;
  Reticle_new : PerspectiveCamera → Reticle;
  Reticle_update :
    option XRSession → option XRReferenceSpace → PerspectiveCamera →
    Reticle → Reticle
}.

(** *** The application object and the page *)

(** The properties of [this]; [None] is [undefined]. *)
Record App := mkApp {
  session : option XRSession;
  renderer : option WebGLRenderer;
  gl : bool;
  XRReferenceSpaceType : option string;
  scene : option Scene;
  model : option Mesh;
  camera : option PerspectiveCamera;
  reticle : option Reticle;
  frameOfRef : option XRReferenceSpace;
  rafId : option nat;
  stabilized : option bool;
  raycaster : option Raycaster
}.

(** Calls to the platform and to the renderer, in the order made. *)
Inductive Call :=
| IsSessionSupported (mode : string)
| RequestSession (mode : string)
| RequestReferenceSpace (type : string)
| RequestAnimationFrame
| GetDevicePose
| GetViewerPose
| SetViewport (v : Viewport)
| UpdateMatrixWorld
| ReticleUpdate
| GetPose
| Render
| RequestHitTest (r : XRRay)
| VrSetSession (s : option nat).

(** The requests among the calls that the platform answers later, by a
    callback or by settling a promise. *)
Inductive Request :=
| SupportRequest
| SessionRequest
| ReferenceSpaceRequest
| FrameRequest
| HitTestRequest.

#[global] Instance Request_eq_dec : EqDecision Request.
Proof. solve_decision. Defined.

Definition request_of (c : Call) : option Request :=
  match c with
  | IsSessionSupported _ => Some SupportRequest
  | RequestSession _ => Some SessionRequest
  | RequestReferenceSpace _ => Some ReferenceSpaceRequest
  | RequestAnimationFrame => Some FrameRequest
  | RequestHitTest _ => Some HitTestRequest
  | _ => None
  end.

Inductive ConsoleEntry :=
| Log (msg : string)
| LogError (e : Error)
| Warn (msg : string) (e : Error).

(** Everything the handlers read or write: the application object, the
    class list of [document.body], the canvases appended to it, the click
    listener of the "Enter AR" button, the "end" listeners of the
    session, the console, the calls made, the errors of asynchronous
    functions nobody handles, the next animation-frame handle, and the
    requests the platform has answered so far. *)
Record World := mkWorld {
  app : App;
  classList : gset string;
  canvases : nat;
  enter_ar_listener : bool;
  end_listeners : nat;
  console : list ConsoleEntry;
  calls : list Call;
  unhandled : list Error;
  next_handle : nat;
  answered : list Request
}.

Definition App_new : App :=
  mkApp None None false None None None None None None None None None.

Definition World_new : World :=
  mkWorld App_new ∅ 0 false 0 [] [] [] 1 [].

(** *** Writing one property *)

Definition set_session (v : option XRSession) (a : App) : App :=
  mkApp v (renderer a) (gl a) (XRReferenceSpaceType a) (scene a) (model a)
    (camera a) (reticle a) (frameOfRef a) (rafId a) (stabilized a)
    (raycaster a).

Definition set_renderer (v : option WebGLRenderer) (a : App) : App :=
  mkApp (session a) v (gl a) (XRReferenceSpaceType a) (scene a) (model a)
    (camera a) (reticle a) (frameOfRef a) (rafId a) (stabilized a)
    (raycaster a).

Definition set_gl (v : bool) (a : App) : App :=
  mkApp (session a) (renderer a) v (XRReferenceSpaceType a) (scene a)
    (model a) (camera a) (reticle a) (frameOfRef a) (rafId a) (stabilized a)
    (raycaster a).

Definition set_XRReferenceSpaceType (v : option string) (a : App) : App :=
  mkApp (session a) (renderer a) (gl a) v (scene a) (model a) (camera a)
    (reticle a) (frameOfRef a) (rafId a) (stabilized a) (raycaster a).

Definition set_scene (v : option Scene) (a : App) : App :=
  mkApp (session a) (renderer a) (gl a) (XRReferenceSpaceType a) v (model a)
    (camera a) (reticle a) (frameOfRef a) (rafId a) (stabilized a)
    (raycaster a).

Definition set_model (v : option Mesh) (a : App) : App :=
  mkApp (session a) (renderer a) (gl a) (XRReferenceSpaceType a) (scene a) v
    (camera a) (reticle a) (frameOfRef a) (rafId a) (stabilized a)
    (raycaster a).

Definition set_camera (v : option PerspectiveCamera) (a : App) : App :=
  mkApp (session a) (renderer a) (gl a) (XRReferenceSpaceType a) (scene a)
    (model a) v (reticle a) (frameOfRef a) (rafId a) (stabilized a)
    (raycaster a).

Definition set_reticle (v : option Reticle) (a : App) : App :=
  mkApp (session a) (renderer a) (gl a) (XRReferenceSpaceType a) (scene a)
    (model a) (camera a) v (frameOfRef a) (rafId a) (stabilized a)
    (raycaster a).

Definition set_frameOfRef (v : option XRReferenceSpace) (a : App) : App :=
  mkApp (session a) (renderer a) (gl a) (XRReferenceSpaceType a) (scene a)
    (model a) (camera a) (reticle a) v (rafId a) (stabilized a) (raycaster a).

Definition set_rafId (v : option nat) (a : App) : App :=
  mkApp (session a) (renderer a) (gl a) (XRReferenceSpaceType a) (scene a)
    (model a) (camera a) (reticle a) (frameOfRef a) v (stabilized a)
    (raycaster a).

Definition set_stabilized (v : option bool) (a : App) : App :=
  mkApp (session a) (renderer a) (gl a) (XRReferenceSpaceType a) (scene a)
    (model a) (camera a) (reticle a) (frameOfRef a) (rafId a) v (raycaster a).

Definition set_raycaster (v : option Raycaster) (a : App) : App :=
  mkApp (session a) (renderer a) (gl a) (XRReferenceSpaceType a) (scene a)
    (model a) (camera a) (reticle a) (frameOfRef a) (rafId a) (stabilized a) v.

Definition with_app (f : App → App) (w : World)
  : World :=
  mkWorld (f (app w)) (classList w) (canvases w) (enter_ar_listener w)
    (end_listeners w) (console w) (calls w) (unhandled w) (next_handle w)
    (answered w).

Definition with_classList (f : gset string → gset string) (w : World)
  : World :=
  mkWorld (app w) (f (classList w)) (canvases w) (enter_ar_listener w)
    (end_listeners w) (console w) (calls w) (unhandled w) (next_handle w)
    (answered w).

Definition with_canvases (f : nat → nat) (w : World)
  : World :=
  mkWorld (app w) (classList w) (f (canvases w)) (enter_ar_listener w)
    (end_listeners w) (console w) (calls w) (unhandled w) (next_handle w)
    (answered w).

Definition with_enter_ar_listener (v : bool) (w : World) : World :=
  mkWorld (app w) (classList w) (canvases w) v (end_listeners w) (console w)
    (calls w) (unhandled w) (next_handle w) (answered w).

Definition with_end_listeners (f : nat → nat) (w : World)
  : World :=
  mkWorld (app w) (classList w) (canvases w) (enter_ar_listener w)
    (f (end_listeners w)) (console w) (calls w) (unhandled w) (next_handle w)
    (answered w).

Definition with_console (f : list ConsoleEntry → list ConsoleEntry) (w : World)
  : World :=
  mkWorld (app w) (classList w) (canvases w) (enter_ar_listener w)
    (end_listeners w) (f (console w)) (calls w) (unhandled w) (next_handle w)
    (answered w).

Definition with_calls (f : list Call → list Call) (w : World)
  : World :=
  mkWorld (app w) (classList w) (canvases w) (enter_ar_listener w)
    (end_listeners w) (console w) (f (calls w)) (unhandled w) (next_handle w)
    (answered w).

Definition with_unhandled (f : list Error → list Error) (w : World)
  : World :=
  mkWorld (app w) (classList w) (canvases w) (enter_ar_listener w)
    (end_listeners w) (console w) (calls w) (f (unhandled w)) (next_handle w)
    (answered w).

Definition with_next_handle (f : nat → nat) (w : World)
  : World :=
  mkWorld (app w) (classList w) (canvases w) (enter_ar_listener w)
    (end_listeners w) (console w) (calls w) (unhandled w) (f (next_handle w))
    (answered w).

Definition with_answered (f : list Request → list Request) (w : World)
  : World :=
  mkWorld (app w) (classList w) (canvases w) (enter_ar_listener w)
    (end_listeners w) (console w) (calls w) (unhandled w) (next_handle w)
    (f (answered w)).

(** *** Running a handler: state and exceptions *)

(** A handler ends normally with a value, or throws; either way it
    leaves the world as it was at that point. *)
Inductive Res (A : Type) :=
| Ok (a : A) (w : World)
| Throw (e : Error) (w : World).
Arguments Ok {A} a w.
Arguments Throw {A} e w.

Definition M (A : Type) : Type := World → Res A.

#[global] Instance M_ret : MRet M := λ A a w, Ok a w.

#[global] Instance M_bind : MBind M := λ A B f m w,
  match m w with
  | Ok a w' => f a w'
  | Throw e w' => Throw e w'
  end.

Definition world_of {A} (r : Res A) : World :=
  match r with Ok _ w => w | Throw _ w => w end.

Definition returned {A} (r : Res A) : bool :=
  match r with Ok _ _ => true | Throw _ _ => false end.

Definition throw {A} (e : Error) : M A := λ w, Throw e w.

Definition reads {A} (f : World → A) : M A := λ w, Ok (f w) w.

Definition gets {A} (f : App → A) : M A := reads (λ w, f (app w)).

Definition modify (f : World → World) : M unit := λ w, Ok tt (f w).

Definition assign (f : App → App) : M unit := modify (with_app f).

(** Reading a property of [this] in order to use the object: a
    [TypeError] when the property is [undefined]. *)
Definition the {A} (f : App → option A) : M A := λ w,
  match f (app w) with
  | Some a => Ok a w
  | None => Throw "TypeError" w
  end.

Definition call (c : Call) : M unit := modify (with_calls (λ l, l ++ [c])).

Definition console_put (c : ConsoleEntry) : M unit :=
  modify (with_console (λ l, l ++ [c])).

Definition classList_add (c : string) : M unit :=
  modify (with_classList (λ s, s ∪ {[c]})).

Definition classList_remove (c : string) : M unit :=
  modify (with_classList (λ s, s ∖ {[c]})).

(** [promise.catch(handler)] around a body. *)
Definition catch {A} (m : M A) (h : Error → M A) : M A := λ w,
  match m w with
  | Ok a w' => Ok a w'
  | Throw e w' => h e w'
  end.

(** Calling an [async] function and dropping its promise: the caller goes
    on whatever happens; an exception of the callee rejects the promise
    nobody holds. *)
Definition spawn (m : M unit) : M unit :=
  catch m (λ e, modify (with_unhandled (λ l, l ++ [e]))).

(** [for (const x of xs) body]. *)
Fixpoint for_of {A} (xs : list A) (body : A → M unit) : M unit :=
  match xs with
  | [] => mret tt
  | x :: rest => body x ;; for_of rest body
  end.

(** Truthiness of [this.stabilized]: [undefined] and [false] are falsy. *)
Definition truthy (v : option bool) : bool :=
  match v with Some true => true | _ => false end.

Definition is_some {A} (o : option A) : bool :=
  match o with Some _ => true | None => false end.

(** *** The methods of [App] *)

(** What [init] probes: whether [navigator.xr] exists and whether
    [XRSession.prototype.requestHitTestSource] does. *)
Record Navigator := mkNavigator { xr : bool; requestHitTestSource : bool }.

Section Methods.

Context {lib : Library}.

(** [onNoXRDevice] (lines 52-54). *)
Definition onNoXRDevice : M unit :=
  classList_add "unsupported".

(** [init] (lines 16-46), up to its end: the promise of
    [isSessionSupported] is not awaited, its two callbacks are
    [init_supported] and [init_unsupported] below. In the first branch
    control falls through to the registration of the click listener; the
    second branch returns before it. *)
Definition init (nav : Navigator) : M unit :=
  if (xr nav && requestHitTestSource nav)%bool then
    console_put (Log "navigator.xr && XRSession.prototype.requestHitTestSource ok") ;;
    call (IsSessionSupported "immersive-ar") ;;
    modify (with_enter_ar_listener true)
  else
    onNoXRDevice.

(** First callback of [isSessionSupported(...).then] (lines 25-27): runs
    when the promise is fulfilled, whatever the value. *)
Definition init_supported (answer : bool) : M unit :=
  console_put (Log "supportsSession immersive-ar ok").

(** Second callback (lines 28-30): runs when the promise is rejected. *)
Definition init_unsupported (e : Error) : M unit :=
  onNoXRDevice.

(** [tick] (lines 161-163). *)
Definition tick : M unit :=
  _ ← the session ;
  call RequestAnimationFrame ;;
  h ← reads next_handle ;
  modify (with_next_handle S) ;;
  assign (set_rafId (Some h)).

(** [onSessionStarted] (lines 103-159) up to the [await]. *)
Definition onSessionStarted : M unit :=
  classList_add "ar" ;;
  assign (set_renderer (Some (mkWebGLRenderer true false None None None 0))) ;;
  r ← the renderer ;
  assign (set_renderer (Some
    (mkWebGLRenderer false (vr_enabled r) (vr_referenceSpaceType r)
       (vr_session r) (viewport r) (render_count r)))) ;;
  assign (set_gl true) ;;
  r ← the renderer ;
  assign (set_renderer (Some
    (mkWebGLRenderer (autoClear r) true (vr_referenceSpaceType r)
       (vr_session r) (viewport r) (render_count r)))) ;;
  assign (set_XRReferenceSpaceType (Some "local")) ;;
  r ← the renderer ;
  t ← gets XRReferenceSpaceType ;
  assign (set_renderer (Some
    (mkWebGLRenderer (autoClear r) (vr_enabled r) t
       (vr_session r) (viewport r) (render_count r)))) ;;
  r ← the renderer ;
  s ← gets session ;
  assign (set_renderer (Some
    (mkWebGLRenderer (autoClear r) (vr_enabled r) (vr_referenceSpaceType r)
       (session_id <$> s) (viewport r) (render_count r)))) ;;
  call (VrSetSession (session_id <$> s)) ;;
  s ← the session ;
  assign (set_session (Some (mkXRSession (session_id s) true))) ;;
  assign (set_scene (Some (mkScene [] None))) ;;
  assign (set_model (Some (mkMesh (mkVector3 0 0 0) Quaternion_identity))) ;;
  assign (set_camera (Some
    (mkPerspectiveCamera true PerspectiveCamera_projection
       Matrix4_identity Matrix4_identity))) ;;
  c ← the camera ;
  assign (set_camera (Some
    (mkPerspectiveCamera false (projectionMatrix c) (matrix c) (matrixWorld c)))) ;;
  c ← the camera ;
  assign (set_reticle (Some (Reticle_new c))) ;;
  sc ← the scene ;
  assign (set_scene (Some (Scene_add ReticleRef sc))) ;;
  _ ← the session ;
  call (RequestReferenceSpace "local").

(** The rest of [onSessionStarted] (lines 156-158), once the reference
    space has arrived. *)
Definition onSessionStarted_resumed (space : XRReferenceSpace) : M unit :=
  assign (set_frameOfRef (Some space)) ;;
  tick.

(** [onEnterAR] (lines 60-86) up to its end; the two callbacks of the
    session request follow. *)
Definition onEnterAR : M unit :=
  call (RequestSession "immersive-ar").

(** The [catch] callback of the session request (lines 81-85). *)
Definition onEnterAR_rejected (error : Error) : M unit :=
  console_put (Warn "requestSession immersive-ar error: " error) ;;
  onNoXRDevice.

(** The [then] callback of the session request (lines 71-80); the
    [catch] chained after it also receives what it throws. *)
Definition onEnterAR_granted (xrSession : XRSession) : M unit :=
  catch
    (assign (set_session (Some xrSession)) ;;
     console_put (Log "requestSession immersive-ar ok") ;;
     modify (with_end_listeners S) ;;
     modify (with_canvases S) ;;
     spawn onSessionStarted)
    onEnterAR_rejected.

(** [onXRSessionEnded] (lines 88-96). *)
Definition onXRSessionEnded : M unit :=
  console_put (Log "onXRSessionEnded") ;;
  classList_remove "ar" ;;
  classList_remove "stabilized" ;;
  r ← gets renderer ;
  match r with
  | Some r =>
      assign (set_renderer (Some
        (mkWebGLRenderer (autoClear r) (vr_enabled r) (vr_referenceSpaceType r)
           None (viewport r) (render_count r)))) ;;
      call (VrSetSession None) ;;
      assign (set_stabilized (Some false))
  | None => mret tt
  end.

(** [placeModel] (lines 237-260) up to the [await]: nothing at all when
    there is no session, otherwise the ray through the centre of the
    screen and the hit-test request. *)
Definition placeModel : M unit :=
  s ← gets session ;
  match s with
  | None => mret tt
  | Some _ =>
      rc ← gets raycaster ;
      assign (set_raycaster (Some (default (mkRaycaster None) rc))) ;;
      cam ← gets camera ;
      let r := Raycaster_setFromCamera 0 0 cam in
      assign (set_raycaster (Some (mkRaycaster (Some r)))) ;;
      let xrray := mkXRRay (origin r) (direction r) in
      call (RequestHitTest xrray)
  end.

(** The rest of [placeModel] (lines 260-297), once the hit test has
    ended. [presentedScene] is the scene object itself, so its [pivot] is
    read from [this.scene] where the source reads it. *)
Definition placeModel_resumed (outcome : HitTestOutcome) : M unit :=
  hits ← match outcome with
          | HitTestResolved hs => mret (Some hs)
          | HitTestFailed e => console_put (LogError e) ;; mret None
          end ;
  match hits with
  | Some (hit :: _) =>
      let hitMatrix := Matrix4_fromArray (hitMatrix hit) in
      m ← the model ;
      assign (set_model (Some (mkMesh (setFromMatrixPosition hitMatrix) (quaternion m)))) ;;
      sc ← the scene ;
      assign (set_scene (Some (Scene_add ModelRef sc))) ;;
      cam ← the camera ;
      let camPosition := setFromMatrixPosition (matrix cam) in
      m ← the model ;
      assign (set_model (Some (mkMesh (position m)
        (Object3D_lookAt (position m)
           (mkVector3 (v_x camPosition) (v_y (position m)) (v_z camPosition)))))) ;;
      presentedScene ← the scene ;
      match pivot presentedScene with
      | Some p =>
          m ← the model ;
          assign (set_model (Some (mkMesh (position m)
            (Object3D_rotateY (quaternion m) (- r_y (pivot_rotation p))))))
      | None => mret tt
      end
  | _ => mret tt
  end.

(** [processXRInput] (lines 220-235). *)
Definition processXRInput (frame : XRFrame) : M unit :=
  let sources :=
    filter (λ input, targetRayMode input = "screen") (inputSources frame) in
  match sources with
  | [] => mret tt
  | source :: _ =>
      call GetPose ;;
      match targetRayPose source with
      | Some _ => spawn placeModel
      | None => mret tt
      end
  end.

(** The body of the loop over the views (lines 185-209). *)
Definition render_view (frame : XRFrame) (view : XRView) : M unit :=
  r ← the renderer ;
  assign (set_renderer (Some
    (mkWebGLRenderer (autoClear r) (vr_enabled r) (vr_referenceSpaceType r)
       (vr_session r) (Some (view_viewport view)) (render_count r)))) ;;
  call (SetViewport (view_viewport view)) ;;
  c ← the camera ;
  let viewMatrix := Matrix4_fromArray (view_inverse_matrix view) in
  let m := Matrix4_getInverse viewMatrix in
  let c' := mkPerspectiveCamera (matrixAutoUpdate c)
              (Matrix4_fromArray (view_projectionMatrix view)) m m in
  assign (set_camera (Some c')) ;;
  call UpdateMatrixWorld ;;
  ret ← the reticle ;
  s ← gets session ;
  f ← gets frameOfRef ;
  assign (set_reticle (Some (Reticle_update s f c' ret))) ;;
  call ReticleUpdate ;;
  processXRInput frame ;;
  r ← the renderer ;
  assign (set_renderer (Some
    (mkWebGLRenderer (autoClear r) (vr_enabled r) (vr_referenceSpaceType r)
       (vr_session r) (viewport r) (S (render_count r))))) ;;
  call Render.

(** The pose [onXRFrame] asks for first (lines 172-175). *)
Definition frame_pose (frame : XRFrame) : M bool :=
  if hasGetDevicePose frame
  then call GetDevicePose ;; mret (is_some (devicePose frame))
  else call GetViewerPose ;; mret (is_some (viewerPose frame)).

(** The last statement of [onXRFrame] (lines 212-217). *)
Definition mark_stabilized : M unit :=
  ret ← the reticle ;
  st ← gets stabilized ;
  if (visible ret && negb (truthy st))%bool then
    assign (set_stabilized (Some true)) ;;
    classList_add "stabilized"
  else mret tt.

(** What [onXRFrame] does once it has a pose (lines 184-217). *)
Definition frame_work (frame : XRFrame) : M unit :=
  call GetViewerPose ;;
  match viewerPose frame with
  | None => throw "TypeError"
  | Some vp =>
      for_of (views vp) (render_view frame) ;;
      mark_stabilized
  end.

(** [onXRFrame] (lines 169-218). *)
Definition onXRFrame (time : float) (frame : XRFrame) : M unit :=
  pose ← frame_pose frame ;
  tick ;;
  if (pose : bool) then frame_work frame else mret tt.

End Methods.

(** *** The page's event loop *)

(** What the browser delivers to the application. [ReticleSettled] is the
    reticle's own asynchronous update, which may leave any reticle. *)
Inductive Event :=
| SupportSettled (answer : Settled bool)
| ClickEnterAR
| SessionSettled (answer : Settled XRSession)
| ReferenceSpaceSettled (answer : Settled XRReferenceSpace)
| AnimationFrame (time : float) (frame : XRFrame)
| HitTestSettled (outcome : HitTestOutcome)
| ReticleSettled (r : Reticle)
| SessionEnd.

(** The request an event answers, if it answers one: a click, the
    reticle and the end of the session come unasked. *)
Definition awaited (e : Event) : option Request :=
  match e with
  | SupportSettled _ => Some SupportRequest
  | SessionSettled _ => Some SessionRequest
  | ReferenceSpaceSettled _ => Some ReferenceSpaceRequest
  | AnimationFrame _ _ => Some FrameRequest
  | HitTestSettled _ => Some HitTestRequest
  | ClickEnterAR | ReticleSettled _ | SessionEnd => None
  end.

(** How many requests of one kind were made and not answered yet. *)
Definition outstanding (r : Request) (w : World) : nat :=
  length (filter (λ x, x = r) (omap request_of (calls w))) -
  length (filter (λ x, x = r) (answered w)).

(** The platform only answers what was asked. *)
Definition enabled (e : Event) (w : World) : bool :=
  match awaited e with
  | Some r => bool_decide (0 < outstanding r w)%nat
  | None => true
  end.

Section Loop.

Context {lib : Library}.

(** The callback an event runs. A click only reaches [onEnterAR] through
    the listener [init] registers, the end of a session only reaches
    [onXRSessionEnded] through the listener [onEnterAR] registers, and the
    reticle can only settle once it exists. *)
Definition dispatch (e : Event) : M unit :=
  match e with
  | SupportSettled (Resolved answer) => init_supported answer
  | SupportSettled (Rejected err) => init_unsupported err
  | ClickEnterAR =>
      armed ← reads enter_ar_listener ;
      if (armed : bool) then spawn onEnterAR else mret tt
  | SessionSettled (Resolved s) => onEnterAR_granted s
  | SessionSettled (Rejected err) => onEnterAR_rejected err
  | ReferenceSpaceSettled (Resolved space) => onSessionStarted_resumed space
  | ReferenceSpaceSettled (Rejected err) => throw err
  | AnimationFrame time frame => onXRFrame time frame
  | HitTestSettled outcome => placeModel_resumed outcome
  | ReticleSettled r =>
      old ← gets reticle ;
      match old with
      | Some _ => assign (set_reticle (Some r))
      | None => mret tt
      end
  | SessionEnd =>
      n ← reads end_listeners ;
      if bool_decide (0 < n)%nat then onXRSessionEnded else mret tt
  end.

(** One turn of the event loop: the callback runs, an exception it
    throws is reported and the loop goes on; the request the event
    answered, if any, is noted. *)
Definition step (e : Event) (w : World) : World :=
  with_answered (λ l, l ++ option_list (awaited e))
    (world_of (spawn (dispatch e) w)).

Definition run (es : list Event) (w : World) : World :=
  foldl (λ acc e, step e acc) w es.

(** [window.app = new App()]: the constructor calls [init]. *)
Definition boot (nav : Navigator) : World :=
  world_of (spawn (init nav) World_new).

(** The worlds the page can be in. *)
Inductive reachable : World → Prop :=
| reachable_boot nav : reachable (boot nav)
| reachable_step e w :
    reachable w → enabled e w = true → reachable (step e w).

End Loop.

(** *** Observations used by the statements *)

(** The pose test of [onXRFrame] succeeds on this frame. *)
Definition has_pose (frame : XRFrame) : bool :=
  if hasGetDevicePose frame then is_some (devicePose frame)
  else is_some (viewerPose frame).

(** The first call [onXRFrame] makes. *)
Definition pose_call (frame : XRFrame) : Call :=
  if hasGetDevicePose frame then GetDevicePose else GetViewerPose.

(** The calls that make up a frame's work. *)
Definition is_frame_work (c : Call) : bool :=
  match c with
  | GetViewerPose | SetViewport _ | UpdateMatrixWorld | ReticleUpdate
  | GetPose | Render | RequestHitTest _ => true
  | _ => false
  end.

Definition is_stabilized (w : World) : bool := truthy (stabilized (app w)).

(** [document.body.classList.contains(c)]. *)
Definition has_class (c : string) (w : World) : bool :=
  bool_decide (c ∈ classList w).

(** The two faces of the "stabilized" state: the flag and the class. *)
Definition stabilized_view (w : World) : option bool * bool :=
  (stabilized (app w), has_class "stabilized" w).

(** The session and the objects [onSessionStarted] creates all exist. *)
Definition ready (w : World) : bool :=
  (is_some (session (app w)) && is_some (renderer (app w)) &&
   is_some (scene (app w)) && is_some (model (app w)) &&
   is_some (camera (app w)) && is_some (reticle (app w)))%bool.

(** The requests of a running session: the reference space, the frames
    and the hit tests. *)
Definition is_loop_request (r : Request) : bool :=
  match r with
  | ReferenceSpaceRequest | FrameRequest | HitTestRequest => true
  | SupportRequest | SessionRequest => false
  end.

(** A call that is none of those requests. *)
Definition is_idle_call (c : Call) : bool :=
  match request_of c with
  | Some r => negb (is_loop_request r)
  | None => true
  end.

(** The scene, if there is one, has no [pivot]. *)
Definition no_pivot (w : World) : Prop :=
  ∀ sc, scene (app w) = Some sc → pivot sc = None.

Definition reticle_visible (w : World) : bool :=
  match reticle (app w) with Some r => visible r | None => false end.

Section Observations.

Context {lib : Library}.

(** The frame has a pose, its callback runs to its end, and the reticle
    is visible there. *)
Definition sees_reticle (time : float) (frame : XRFrame) (w : World) : bool :=
  let r := onXRFrame time frame w in
  (has_pose frame && returned r && reticle_visible (world_of r))%bool.

(** The event turns the application from not stabilized to stabilized. *)
Definition fires (e : Event) (w : World) : bool :=
  (negb (is_stabilized w) && is_stabilized (step e w))%bool.

(** Event number [i] of [es], run from [w], is a frame that has a pose,
    runs to its end and finds the reticle visible there. *)
Definition stabilizing (es : list Event) (w : World) (i : nat) : Prop :=
  ∃ time frame,
    es !! i = Some (AnimationFrame time frame) ∧
    sees_reticle time frame (run (take i es) w) = true.

End Observations.

(** *** Relating the world before and after a handler *)

(** [respects R m]: whatever world [m] starts in, and whether it returns
    or throws, the world it leaves is related to it by [R]. *)
Definition respects {A} (R : relation World) (m : M A) : Prop :=
  ∀ w, R w (world_of (m w)).

(** An observation of the world is left as it was. *)
Definition same {A} (f : World → A) : relation World := λ w w', f w' = f w.

(** A property of the world is kept. *)
Definition keeps (P : World → Prop) : relation World := λ w w', P w → P w'.

(** The calls made so far are extended, and only by calls in [P]. *)
Definition calls_grow (P : Call → bool) : relation World := λ w w',
  ∃ l, calls w' = calls w ++ l ∧ forallb P l = true.

(** The world once [onXRFrame] has asked for the pose and requested the
    next frame. *)
Definition rearmed (frame : XRFrame) (w : World) : World :=
  with_app (set_rafId (Some (next_handle w)))
    (with_next_handle S
       (with_calls (λ l, l ++ [RequestAnimationFrame])
          (with_calls (λ l, l ++ [pose_call frame]) w))).

(** The handle of the pending frame and the next handle to give out. *)
Definition frame_handles (w : World) : option nat * nat :=
  (rafId (app w), next_handle w).

(** A library for running the application on concrete inputs. A matrix
    is inverted as a pure translation is (the translation negated); the
    quaternion of [lookAt] just records the vector from the object to the
    target, and [rotateY] adds the angle to its last component; the ray
    starts at the camera and points down the negative z axis; the reticle
    starts hidden and [update] leaves it as it is. *)
Definition Library_sample : Library := {|
  Matrix4_getInverse := λ m,
    mkMatrix4 (m0 m) (m1 m) (m2 m) (m3 m) (m4 m) (m5 m) (m6 m) (m7 m)
      (m8 m) (m9 m) (m10 m) (m11 m) (- m12 m) (- m13 m) (- m14 m) (m15 m);
  PerspectiveCamera_projection := Matrix4_identity;
  Object3D_lookAt := λ p t,
    mkQuaternion (v_x t - v_x p) (v_y t - v_y p) (v_z t - v_z p) 0;
  Object3D_rotateY := λ q a, mkQuaternion (q_x q) (q_y q) (q_z q) (q_w q + a);
  Raycaster_setFromCamera := λ _ _ cam,
    mkRay (from_option (λ c, setFromMatrixPosition (matrixWorld c))
             (mkVector3 0 0 0) cam)
          (mkVector3 0 0 (-1));
  Reticle_new := λ _, mkReticle false;
  Reticle_update := λ _ _ _ r, r
|}.

(** A platform with both capabilities, a session, a reference space, a
    hit on a surface and two frames: one with a single view and a screen
    tap, one without a pose. *)
Definition nav_ok : Navigator := mkNavigator true true.

Definition session1 : XRSession := mkXRSession 1 false.

Definition space1 : XRReferenceSpace := mkXRReferenceSpace 1.

Definition translation (x y z : float) : Matrix4 :=
  mkMatrix4 1 0 0 0  0 1 0 0  0 0 1 0  x y z 1.

Definition view1 : XRView :=
  mkXRView Matrix4_identity (translation 1 2 3) (mkViewport 0 0 800 600).

Definition tap : XRInputSource :=
  mkXRInputSource "screen" (Some (mkXRPose Matrix4_identity)).

Definition frame_tap : XRFrame :=
  mkXRFrame false None (Some (mkXRViewerPose [view1])) [tap].

Definition frame_no_pose : XRFrame := mkXRFrame false None None [].

Definition hit1 : XRHitResult := mkXRHitResult (translation 4 5 6).

Definition hit2 : XRHitResult := mkXRHitResult (translation 7 8 9).

(** The events that bring the page into a running session. *)
Definition enter_session : list Event :=
  [ SupportSettled (Resolved true); ClickEnterAR;
    SessionSettled (Resolved session1);
    ReferenceSpaceSettled (Resolved space1) ].

(** The page in a running session, under the sample library. *)
Definition in_session : World :=
  run (lib := Library_sample) enter_session (boot nav_ok).

(** The same once the reticle has found a surface. *)
Definition reticle_shown : World :=
  step (lib := Library_sample) (ReticleSettled (mkReticle true)) in_session.

(** A stretch of a session: the reticle finds a surface, a frame comes
    without a pose, then two frames with one. *)
Definition session_events : list Event :=
  [ ReticleSettled (mkReticle true);
    AnimationFrame 0 frame_no_pose;
    AnimationFrame 16 frame_tap;
    AnimationFrame 32 frame_tap ].

(** *** What a frame does, view by view *)

(** [sources[0]] of [processXRInput]: the first input source whose
    [targetRayMode] is "screen". *)
Definition first_screen (frame : XRFrame) : option XRInputSource :=
  head (filter (λ input, targetRayMode input = "screen") (inputSources frame)).

(** The frame carries a tap: its first screen source has a pose. *)
Definition tapped (frame : XRFrame) : bool :=
  match first_screen frame with
  | Some source => is_some (targetRayPose source)
  | None => false
  end.

(** The one frame [onXRFrame] cannot finish: the legacy [getDevicePose]
    gives a pose where [getViewerPose] gives none. *)
Definition pose_mismatch (frame : XRFrame) : bool :=
  (hasGetDevicePose frame && is_some (devicePose frame) &&
   negb (is_some (viewerPose frame)))%bool.

(** The views [onXRFrame] goes through. *)
Definition frame_views (frame : XRFrame) : list XRView :=
  if has_pose frame then from_option views [] (viewerPose frame) else [].

(** Every object is among the children of the scene at most once, and
    the reticle is one of them. *)
Definition scene_tidy (w : World) : Prop :=
  ∀ sc, scene (app w) = Some sc →
    NoDup (children sc) ∧ ReticleRef ∈ children sc.

Section Views.

Context {lib : Library}.

(** The camera as the loop leaves it for one view. *)
Definition view_camera (auto : bool) (view : XRView) : PerspectiveCamera :=
  let m := Matrix4_getInverse (Matrix4_fromArray (view_inverse_matrix view)) in
  mkPerspectiveCamera auto (Matrix4_fromArray (view_projectionMatrix view)) m m.

(** The ray [placeModel] casts from a camera. *)
Definition camera_ray (c : PerspectiveCamera) : XRRay :=
  let r := Raycaster_setFromCamera 0 0 (Some c) in
  mkXRRay (origin r) (direction r).

(** The calls [processXRInput] makes when there is a session. *)
Definition input_calls (frame : XRFrame) (c : PerspectiveCamera) : list Call :=
  match first_screen frame with
  | None => []
  | Some source =>
      GetPose ::
      (if is_some (targetRayPose source) then [RequestHitTest (camera_ray c)]
       else [])
  end.

(** The calls of one turn of the loop over the views. *)
Definition view_calls (frame : XRFrame) (auto : bool) (view : XRView)
  : list Call :=
  [SetViewport (view_viewport view); UpdateMatrixWorld; ReticleUpdate] ++
  input_calls frame (view_camera auto view) ++ [Render].


End Views.


End XR.

(** * Properties of the scene animation controller *)

Module DemoSpec.

Import Demo.

Local Open Scope float_scope.

(** If the IEEE comparison with [c] tells [a] and [b] apart, they differ. *)
Lemma float_neq_by_eqb (a b c : float) :
  PrimFloat.eqb a c = true → PrimFloat.eqb b c = false → a ≠ b.
Proof. intros Ha Hb Hab. rewrite Hab in Ha. congruence. Qed.

(** What a resize settles: the camera's aspect ratio, the ratio its
    projection matrix was built for, the renderer's size and [sizes]. *)
Lemma resize_settles (w : Window) (s : State) :
  viewport_state (onResize w s) =
    (innerWidth w / innerHeight w, innerWidth w / innerHeight w,
     innerWidth w, innerHeight w, mkSizes (innerWidth w) (innerHeight w)).
Proof. reflexivity. Qed.

(** No other event touches any of that. *)
Lemma others_keep_viewport (e : Event) (s : State) :
  (∀ w, e ≠ Resize w) → viewport_state (handle e s) = viewport_state s.
Proof. intros H. destruct e as [w| | |]; [by destruct (H w)|..]; reflexivity. Qed.

Lemma run_keeps_viewport (es : list Event) (s : State) :
  Forall (λ e, ∀ w, e ≠ Resize w) es →
  viewport_state (run es s) = viewport_state s.
Proof.
  intros H. revert s. induction H as [|e es He _ IH]; intros s; [reflexivity|].
  change (run (e :: es) s) with (run es (handle e s)).
  by rewrite IH, others_keep_viewport.
Qed.

(** C6. After the resize handler has run, and for as long as no other
    resize follows, the camera's aspect ratio is the window's new inner
    width divided by its new inner height, the projection matrix has
    been rebuilt for that ratio, and the renderer's size and the [sizes]
    object hold the new width and height. *)
Theorem resize_syncs_camera_and_renderer
    (w : Window) (s : State) (later : list Event) :
  Forall (λ e, ∀ w', e ≠ Resize w') later →
  let s' := run later (onResize w s) in
  aspect (camera s') = innerWidth w / innerHeight w ∧
  projection_aspect (camera s') = innerWidth w / innerHeight w ∧
  size_width (renderer s') = innerWidth w ∧
  size_height (renderer s') = innerHeight w ∧
  sizes s' = mkSizes (innerWidth w) (innerHeight w).
Proof.
  intros H s'.
  pose proof (run_keeps_viewport later (onResize w s) H) as Hk.
  rewrite resize_settles in Hk. fold s' in Hk.
  unfold viewport_state in Hk. by injection Hk as -> -> -> -> ->.
Qed.

(** The window shrinks to 800 x 600; a pointer move, a scroll and a frame
    follow. *)
Lemma resize_syncs_camera_and_renderer_witness :
  let s' := run [MouseMove pointer; Scroll scrolled; AnimationFrame 1]
              (onResize (mkWindow 800 600 2 0) (start window0)) in
  aspect (camera s') = 800 / 600 ∧
  projection_aspect (camera s') = 800 / 600 ∧
  size_width (renderer s') = 800 ∧
  size_height (renderer s') = 600 ∧
  sizes s' = mkSizes 800 600.
Proof.
  apply (resize_syncs_camera_and_renderer (mkWindow 800 600 2 0)
           (start window0)
           [MouseMove pointer; Scroll scrolled; AnimationFrame 1]).
  repeat constructor; intros w'; discriminate.
Defined.

(** C7, as stated, fails for the scroll handler: scrolling the page by
    1000 pixels moves the sphere from height 0 to height 1 at once. *)
Lemma scroll_moves_sphere :
  position (sphere (start window0)) = mkVector3 0 0 0 ∧
  position (sphere (onScroll scrolled (start window0))) = mkVector3 0 1 0 ∧
  sphere (onScroll scrolled (start window0)) ≠ sphere (start window0).
Proof.
  split; [reflexivity|]. split; [vm_compute; reflexivity|].
  intros H. apply (f_equal (λ m, v_y (position m))) in H.
  revert H. apply (float_neq_by_eqb _ _ 1); vm_compute; reflexivity.
Qed.

(** C7, amended. The pointer-move handler writes the two pointer offsets
    and nothing else, so no number of pointer moves changes the sphere:
    it stays as it is until [tick] turns the offsets into targets. The
    scroll handler writes the sphere's height
    directly, as the scroll offset times 0.001, and leaves the sphere's
    rotation, its other two coordinates and the pointer offsets and
    targets alone. *)
Theorem pointer_and_scroll_handlers (ev : MouseEvent) (w : Window) (s : State) :
  (∀ evs, sphere (run (MouseMove <$> evs) s) = sphere s) ∧
  (onMouseMove ev s =
     mkState (sphere s) (sizes s) (camera s) (renderer s)
       (clientX ev - windowX s) (clientY ev - windowY s)
       (targetX s) (targetY s) (windowX s) (windowY s) (frames_requested s)) ∧
  (∀ t, targetX (tick t (onMouseMove ev s)) = (clientX ev - windowX s) * 0.001 ∧
        targetY (tick t (onMouseMove ev s)) = (clientY ev - windowY s) * 0.001) ∧
  (onScroll w s =
     mkState
       (mkMesh (mkVector3 (v_x (position (sphere s))) (scrollY w * 0.001)
                  (v_z (position (sphere s))))
               (rotation (sphere s)))
       (sizes s) (camera s) (renderer s) (mouseX s) (mouseY s)
       (targetX s) (targetY s) (windowX s) (windowY s) (frames_requested s)).
Proof.
  split; [|repeat split].
  intros evs. revert s. induction evs as [|e evs IH]; intros s; [reflexivity|].
  change (run (MouseMove <$> e :: evs) s)
    with (run (MouseMove <$> evs) (onMouseMove e s)).
  by rewrite IH.
Qed.

(** C8, as stated, fails: with the same elapsed time and the same pointer
    offsets, [tick] leaves the sphere in different places depending on
    the rotation it had accumulated. Here the second state is the first
    one after one frame. *)
Lemma tick_depends_on_accumulated_rotation :
  mouseX (tick 1 pointed) = mouseX pointed ∧
  mouseY (tick 1 pointed) = mouseY pointed ∧
  sphere (tick 2 (tick 1 pointed)) ≠ sphere (tick 2 pointed).
Proof.
  split; [reflexivity|]. split; [reflexivity|].
  intros H. apply (f_equal (λ m, r_x (rotation m))) in H.
  revert H.
  apply not_eq_sym,
    (float_neq_by_eqb _ _ (r_x (rotation (sphere (tick 2 pointed)))));
    vm_compute; reflexivity.
Qed.

(** C8, amended. [tick] is straight-line arithmetic on the elapsed time,
    the pointer offsets and the sphere it finds. The rotation about y is
    a function of the elapsed time and the horizontal offset alone: half
    the elapsed time, moved halfway to the target. The rotation about x
    moves from its previous value a twentieth of the way to the target,
    and the depth moves from its previous value by -0.05 times what then
    remains between that target and the new rotation about x. *)
Theorem tick_sphere (elapsedTime : float) (s : State) :
  let tX := mouseX s * 0.001 in
  let tY := mouseY s * 0.001 in
  let p := position (sphere s) in
  let r := rotation (sphere s) in
  let rx := r_x r + 0.05 * (tY - r_x r) in
  targetX (tick elapsedTime s) = tX ∧
  targetY (tick elapsedTime s) = tY ∧
  rotation (sphere (tick elapsedTime s)) =
    mkEuler rx (0.5 * elapsedTime + 0.5 * (tX - 0.5 * elapsedTime)) (r_z r) ∧
  position (sphere (tick elapsedTime s)) =
    mkVector3 (v_x p) (v_y p) (v_z p + (- 0.05) * (tY - rx)) ∧
  rendered (renderer (tick elapsedTime s)) = S (rendered (renderer s)) ∧
  frames_requested (tick elapsedTime s) = S (frames_requested s).
Proof. repeat split. Qed.

(** The rotation about y after a frame is the same for any two states
    with the same horizontal pointer offset. *)
Lemma tick_spin_forgets (elapsedTime : float) (s1 s2 : State) :
  mouseX s1 = mouseX s2 →
  r_y (rotation (sphere (tick elapsedTime s1))) =
  r_y (rotation (sphere (tick elapsedTime s2))).
Proof. intros H. cbn. by rewrite H. Qed.

(** ** Between two frames only the latest inputs count *)

Lemma run_cons (e : Event) (es : list Event) (s : State) :
  run (e :: es) s = run es (handle e s).
Proof. reflexivity. Qed.

(** A frame-free stretch of events amounts to at most one resize, one
    pointer move and one scroll. *)
Lemma settle_step (e : Event) (es : list Event) (s : State) :
  is_frame e = false →
  apply_last onScroll (last_scroll es)
    (apply_last onMouseMove (last_move es)
       (apply_last onResize (last_resize es) (handle e s))) =
  apply_last onScroll (last_scroll (e :: es))
    (apply_last onMouseMove (last_move (e :: es))
       (apply_last onResize (last_resize (e :: es)) s)).
Proof.
  intros He. cbn [last_scroll last_move last_resize].
  destruct e as [w|ev|w|t]; [| | |discriminate];
    destruct (last_scroll es), (last_move es), (last_resize es); reflexivity.
Qed.

(** X1. Over any stretch of events without an animation frame, the three
    listeners are last-write-wins and do not interfere: the state at the
    end is the state at the start after the last resize, the last
    pointer move and the last scroll of the stretch, whatever came
    before them and in whatever order. *)
Theorem latest_inputs_win (es : list Event) (s : State) :
  Forall (λ e, is_frame e = false) es →
  run es s =
    apply_last onScroll (last_scroll es)
      (apply_last onMouseMove (last_move es)
         (apply_last onResize (last_resize es) s)).
Proof.
  intros H. revert s. induction H as [|e es He _ IH]; intros s; [reflexivity|].
  by rewrite run_cons, IH, settle_step.
Qed.

(** Two resizes, two pointer moves and two scrolls, interleaved. *)
Lemma latest_inputs_win_witness :
  run [Scroll window0; Resize window0; MouseMove (mkMouseEvent 1 1);
       Resize (mkWindow 800 600 2 0); Scroll scrolled; MouseMove pointer]
      (start window0) =
    onScroll scrolled
      (onMouseMove pointer
         (onResize (mkWindow 800 600 2 0) (start window0))).
Proof.
  apply (latest_inputs_win
           [Scroll window0; Resize window0; MouseMove (mkMouseEvent 1 1);
            Resize (mkWindow 800 600 2 0); Scroll scrolled; MouseMove pointer]
           (start window0)).
  repeat constructor.
Defined.

(** ** What no event changes *)

Lemma handle_keeps_fixed_part (e : Event) (s : State) :
  fixed_part (handle e s) = fixed_part s.
Proof. by destruct e. Qed.

Lemma run_keeps_fixed_part (es : list Event) (s : State) :
  fixed_part (run es s) = fixed_part s.
Proof.
  revert s. induction es as [|e es IH]; intros s; [reflexivity|].
  by rewrite run_cons, IH, handle_keeps_fixed_part.
Qed.

(** X2. The pointer offsets are always measured from the centre of the
    window as it was when the script started: no event, a resize
    included, moves that centre. After any events, a pointer move at
    (x, y) leaves the offsets x - W/2 and y - H/2 for the initial inner
    width W and height H. *)
Theorem pointer_offsets_from_initial_centre
    (w0 : Window) (es : list Event) (ev : MouseEvent) :
  let s := onMouseMove ev (run es (start w0)) in
  mouseX s = clientX ev - innerWidth w0 / 2 ∧
  mouseY s = clientY ev - innerHeight w0 / 2.
Proof.
  pose proof (run_keeps_fixed_part es (start w0)) as H.
  unfold fixed_part in H. injection H as Hx Hy _ _.
  cbn. by rewrite Hx, Hy.
Qed.

(** ** Where the sphere can go *)

Lemma sphere_height_step (e : Event) (es : list Event) (s : State) :
  from_option (λ w, scrollY w * 0.001) (v_y (position (sphere (handle e s))))
    (last_scroll es) =
  from_option (λ w, scrollY w * 0.001) (v_y (position (sphere s)))
    (last_scroll (e :: es)).
Proof.
  cbn [last_scroll]. destruct (last_scroll es); [reflexivity|].
  by destruct e.
Qed.

(** X3. Whatever events arrive, frames included, the sphere never moves
    along x and never rotates about z, and its height is 0.001 times the
    scroll offset of the last scroll event (its initial height if the
    page was never scrolled): frames move it only in depth. *)
Theorem sphere_moves_only_in_depth (es : list Event) (s : State) :
  v_x (position (sphere (run es s))) = v_x (position (sphere s)) ∧
  r_z (rotation (sphere (run es s))) = r_z (rotation (sphere s)) ∧
  v_y (position (sphere (run es s))) =
    from_option (λ w, scrollY w * 0.001) (v_y (position (sphere s)))
      (last_scroll es).
Proof.
  pose proof (run_keeps_fixed_part es s) as H.
  unfold fixed_part in H. injection H as _ _ Hx Hz.
  split; [exact Hx|]. split; [exact Hz|].
  clear Hx Hz. revert s.
  induction es as [|e es IH]; intros s; [reflexivity|].
  by rewrite run_cons, IH, sphere_height_step.
Qed.

(** ** One render and one request per frame *)

Lemma frames_cons (e : Event) (es : list Event) :
  frames (e :: es) = ((if is_frame e then 1 else 0) + frames es)%nat.
Proof. unfold frames. cbn. by destruct (is_frame e). Qed.

(** X4. Over any events, the scene is rendered once per animation frame
    and at no other time, and every frame requests exactly one next
    frame: resizes, pointer moves and scrolls neither render nor
    schedule. *)
Theorem one_render_per_frame (es : list Event) (s : State) :
  rendered (renderer (run es s)) = (rendered (renderer s) + frames es)%nat ∧
  frames_requested (run es s) = (frames_requested s + frames es)%nat.
Proof.
  revert s. induction es as [|e es IH]; intros s.
  - cbn. unfold frames. cbn. lia.
  - rewrite run_cons, frames_cons. destruct (IH (handle e s)) as [-> ->].
    destruct e; cbn; lia.
Qed.

(** ** The pixel ratio is capped *)

Lemma ltb_leb (x y : float) : (x <? y) = true → (x <=? y) = true.
Proof.
  rewrite FloatAxioms.ltb_spec, FloatAxioms.leb_spec. unfold SFltb, SFleb.
  by destruct (SFcompare (Prim2SF x) (Prim2SF y)) as [[]|].
Qed.

Lemma zero_leb_two (a : float) : is_zero a = true → (a <=? 2) = true.
Proof.
  unfold is_zero. rewrite FloatAxioms.eqb_spec, FloatAxioms.leb_spec.
  replace (Prim2SF zero) with (S754_zero false) by (vm_compute; reflexivity).
  replace (Prim2SF 2)
    with (S754_finite false 4503599627370496%positive (-51)%Z)
    by (vm_compute; reflexivity).
  destruct (Prim2SF a) as [sg|sg| |sg m e]; try destruct sg;
    unfold SFeqb, SFleb, SFcompare; try discriminate; reflexivity.
Qed.

(** [Math.min(a, 2)] is at most 2 unless [a] is NaN, and then it is NaN. *)
Lemma Math_min_two (a : float) :
  if is_nan a then Math_min a 2 = nan else (Math_min a 2 <=? 2) = true.
Proof.
  unfold Math_min. destruct (is_nan a) eqn:Hn; [reflexivity|].
  change (is_nan 2) with false. cbn [orb].
  destruct (a <? 2) eqn:Hlt; [by apply ltb_leb|].
  destruct (2 <? a); [vm_compute; reflexivity|].
  destruct (is_zero a && get_sign a)%bool eqn:Hz; [|vm_compute; reflexivity].
  apply andb_prop in Hz as [Hz _]. by apply zero_leb_two.
Qed.

Lemma ratio_step (e : Event) (s : State) :
  ratio_is_number e = true →
  (pixelRatio (renderer s) <=? 2) = true →
  (pixelRatio (renderer (handle e s)) <=? 2) = true.
Proof.
  intros He Hs. destruct e as [w| | |]; try exact Hs.
  cbn in He |- *. pose proof (Math_min_two (devicePixelRatio w)) as H.
  by destruct (is_nan (devicePixelRatio w)).
Qed.

(** X5. The renderer's pixel ratio never exceeds 2: as long as the
    device pixel ratio the window reports is a number, at start and at
    every resize, the ratio given to the renderer is at most 2 after any
    sequence of events, however large the device's own ratio is. *)
Theorem pixel_ratio_capped (w0 : Window) (es : list Event) :
  is_nan (devicePixelRatio w0) = false →
  Forall (λ e, ratio_is_number e = true) es →
  (pixelRatio (renderer (run es (start w0))) <=? 2) = true.
Proof.
  intros H0 Hes.
  assert (Hstart : (pixelRatio (renderer (start w0)) <=? 2) = true).
  { cbn. pose proof (Math_min_two (devicePixelRatio w0)) as H.
    by rewrite H0 in H. }
  revert Hstart. generalize (start w0).
  induction Hes as [|e es He _ IH]; intros s Hs; [exact Hs|].
  rewrite run_cons. apply IH. by apply ratio_step.
Qed.

(** A device with pixel ratio 3, then a window with ratio 2.5. *)
Lemma pixel_ratio_capped_witness :
  (pixelRatio
     (renderer
        (run [AnimationFrame 1; Resize (mkWindow 800 600 2.5 0); Scroll scrolled]
           (start (mkWindow 1280 720 3 0)))) <=? 2) = true.
Proof.
  apply (pixel_ratio_capped (mkWindow 1280 720 3 0)
           [AnimationFrame 1; Resize (mkWindow 800 600 2.5 0); Scroll scrolled]).
  - vm_compute. reflexivity.
  - repeat constructor.
Defined.

End DemoSpec.

(** * Properties of the XR session controller *)

Module XRSpec.

Import XR.

Local Open Scope float_scope.

(** ** Relating the world before and after a handler *)

Section Respects.

Context (R : relation World) `{!PreOrder R}.

Lemma respects_ret {A} (a : A) : respects R (mret a).
Proof. intros w. reflexivity. Qed.

Lemma respects_throw {A} (e : Error) : respects R (throw (A := A) e).
Proof. intros w. reflexivity. Qed.

Lemma respects_reads {A} (f : World → A) : respects R (reads f).
Proof. intros w. reflexivity. Qed.

Lemma respects_gets {A} (f : App → A) : respects R (gets f).
Proof. intros w. reflexivity. Qed.

Lemma respects_the {A} (f : App → option A) : respects R (the f).
Proof. intros w. unfold the. destruct (f (app w)); reflexivity. Qed.

Lemma respects_modify (f : World → World) :
  (∀ w, R w (f w)) → respects R (modify f).
Proof. intros H w. apply H. Qed.

Lemma respects_bind {A B} (m : M A) (f : A → M B) :
  respects R m → (∀ a, respects R (f a)) → respects R (m ≫= f).
Proof.
  intros Hm Hf w. unfold mbind, M_bind.
  specialize (Hm w). destruct (m w) as [a w'|e w']; simpl in *.
  - etransitivity; [exact Hm | apply Hf].
  - exact Hm.
Qed.

Lemma respects_catch {A} (m : M A) (h : Error → M A) :
  respects R m → (∀ e, respects R (h e)) → respects R (catch m h).
Proof.
  intros Hm Hh w. unfold catch.
  specialize (Hm w). destruct (m w) as [a w'|e w']; simpl in *.
  - exact Hm.
  - etransitivity; [exact Hm | apply Hh].
Qed.

Lemma respects_for_of {A} (xs : list A) (body : A → M unit) :
  (∀ x, respects R (body x)) → respects R (for_of xs body).
Proof.
  intros Hb. induction xs as [|x xs IH]; simpl.
  - apply respects_ret.
  - apply respects_bind; [apply Hb | intros _; exact IH].
Qed.

End Respects.

(** The relations are preorders. *)

#[local] Instance same_preorder {A} (f : World → A) : PreOrder (same f).
Proof. split; unfold same; [intros w; reflexivity | intros x y z; congruence]. Qed.

#[local] Instance keeps_preorder (P : World → Prop) : PreOrder (keeps P).
Proof. split; unfold keeps; [intros w; tauto | intros x y z; tauto]. Qed.

#[local] Instance calls_grow_preorder (P : Call → bool) : PreOrder (calls_grow P).
Proof.
  split.
  - intros w. exists []. split; [by rewrite app_nil_r | done].
  - intros x y z [l1 [H1 F1]] [l2 [H2 F2]]. exists (l1 ++ l2). split.
    + by rewrite H2, H1, app_assoc.
    + rewrite forallb_app, F1, F2. done.
Qed.

(** Takes a handler apart down to its single writes, unless [known]
    already settles it. *)
Ltac respects_split known :=
  repeat first
    [ solve [known]
    | apply respects_ret; apply _
    | apply respects_throw; apply _
    | apply respects_reads; apply _
    | apply respects_gets; apply _
    | apply respects_the; apply _
    | apply respects_bind; [apply _ | | intros ?]
    | apply respects_catch; [apply _ | | intros ?]
    | apply respects_for_of; [apply _ | intros ?]
    | match goal with
      | |- respects _ (match ?x with _ => _ end) => destruct x
      end ].

(** ** Session end (C5) *)

Lemma onXRSessionEnded_drops_stabilized (w : World) :
  has_class "stabilized" (world_of (onXRSessionEnded w)) = false.
Proof.
  unfold onXRSessionEnded, has_class.
  unfold mbind, M_bind, gets, reads, console_put, classList_remove, modify.
  simpl. destruct (renderer (app w)); simpl;
    apply bool_decide_eq_false; set_solver.
Qed.

(** C5. Whatever the state of the page and of the application, with or
    without a renderer and stabilized or not, [onXRSessionEnded] returns
    normally and leaves [document.body] without the "ar" class and
    without the "stabilized" class. *)
Theorem session_end_clears_classes (w : World) :
  let r := onXRSessionEnded w in
  returned r = true ∧
  has_class "ar" (world_of r) = false ∧
  has_class "stabilized" (world_of r) = false.
Proof.
  unfold onXRSessionEnded, has_class.
  unfold mbind, M_bind, gets, reads, console_put, classList_remove, modify; simpl.
  destruct (renderer (app w)); simpl;
    (split; [reflexivity|]);
    split; apply bool_decide_eq_false; set_solver.
Qed.

(** The same through the event loop, once a session has registered its
    "end" listener; the other classes of the body are left alone. *)
Lemma session_end_event {lib : Library} (w : World) (c : string) :
  (0 < end_listeners w)%nat →
  has_class c (step SessionEnd w) =
    (has_class c w && bool_decide (c ≠ "ar") && bool_decide (c ≠ "stabilized"))%bool.
Proof.
  intros Hn. unfold step, spawn, catch, dispatch, has_class.
  unfold mbind, M_bind, reads. simpl.
  rewrite (bool_decide_eq_true_2 _ Hn).
  unfold onXRSessionEnded.
  unfold mbind, M_bind, gets, reads, console_put, classList_remove, modify; simpl.
  destruct (renderer (app w)); simpl;
    repeat case_bool_decide; simpl; try reflexivity; set_solver.
Qed.

(** A session that had a renderer ends with the flag reset as well, and
    the page starts with neither flag nor class: every session begins
    not stabilized. *)
Lemma session_end_resets (w : World) (r : WebGLRenderer) :
  renderer (app w) = Some r →
  stabilized_view (world_of (onXRSessionEnded w)) = (Some false, false).
Proof.
  intros H. unfold stabilized_view. f_equal.
  - unfold onXRSessionEnded.
    unfold mbind, M_bind, gets, reads, console_put, classList_remove, modify.
    cbn. rewrite H. reflexivity.
  - apply onXRSessionEnded_drops_stabilized.
Qed.

Lemma boot_not_stabilized (nav : Navigator) :
  stabilized_view (boot nav) = (None, false).
Proof.
  unfold boot, spawn, catch, init.
  by destruct (xr nav && requestHitTestSource nav)%bool.
Qed.

(** ** Hit-test failure and missing session (C4, C10) *)

(** C4. When the awaited hit test throws or rejects, the rest of
    [placeModel] logs the error and returns normally: the application
    object (model, scene, camera, the pending frame handle), the classes,
    the calls made and the list of unhandled errors are all as before,
    and the frames that were requested are still to come. *)
Theorem hit_test_failure_is_ignored {lib : Library} (e : Error) (w : World) :
  placeModel_resumed (HitTestFailed e) w =
    Ok tt (with_console (λ l, l ++ [LogError e]) w) ∧
  let w' := step (HitTestSettled (HitTestFailed e)) w in
  app w' = app w ∧
  console w' = console w ++ [LogError e] ∧
  classList w' = classList w ∧
  calls w' = calls w ∧
  unhandled w' = unhandled w ∧
  next_handle w' = next_handle w ∧
  outstanding FrameRequest w' = outstanding FrameRequest w.
Proof.
  repeat split.
  unfold outstanding, step. cbn. by rewrite filter_app, app_nil_r.
Qed.

(** A hit test that resolves to no hit at all changes nothing. *)
Lemma hit_test_empty {lib : Library} (w : World) :
  placeModel_resumed (HitTestResolved []) w = Ok tt w.
Proof. reflexivity. Qed.

(** C10. Called while [this.session] is null or undefined, [placeModel]
    returns at once: no hit test is requested and the world is exactly
    as it was. *)
Theorem placeModel_without_session {lib : Library} (w : World) :
  session (app w) = None →
  placeModel w = Ok tt w.
Proof.
  intros H. unfold placeModel, mbind, M_bind, gets, reads. simpl.
  rewrite H. reflexivity.
Qed.

(** Before any session is granted, on the page just loaded. *)
Lemma placeModel_without_session_witness :
  session (app (boot nav_ok)) = None ∧
  placeModel (lib := Library_sample) (boot nav_ok) = Ok tt (boot nav_ok).
Proof.
  split; [reflexivity|].
  apply (placeModel_without_session (lib := Library_sample)). reflexivity.
Defined.

(** With a session, on the other hand, the hit test is requested. *)
Lemma placeModel_with_session {lib : Library} (w : World) (s : XRSession) :
  session (app w) = Some s →
  ∃ r, calls (world_of (placeModel w)) = calls w ++ [RequestHitTest r].
Proof.
  intros H. unfold placeModel, mbind, M_bind, gets, reads. simpl.
  rewrite H. simpl. eauto.
Qed.

(** ** The capability probe (C9) *)

(** When [navigator.xr] or the hit-test capability is missing, the page
    gets the "unsupported" class, no click listener is registered, and a
    click on "Enter AR" does nothing. *)
Lemma probe_missing_capability {lib : Library} (nav : Navigator) :
  (xr nav && requestHitTestSource nav)%bool = false →
  has_class "unsupported" (boot nav) = true ∧
  enter_ar_listener (boot nav) = false ∧
  step ClickEnterAR (boot nav) = boot nav.
Proof.
  intros H. unfold boot, spawn, catch, init. rewrite H.
  repeat split.
Qed.

(** C9, where the code departs from it. With [navigator.xr] and the
    hit-test capability present, [init] registers the click listener
    before the session-support answer arrives. If the answer is a
    fulfilled promise, even with the value [false], the page never gets
    the "unsupported" class; if the promise is rejected the class is
    added, but the listener stays and a click still requests a session. *)
Theorem probe_negative_answer_still_armed {lib : Library} :
  let w0 := boot nav_ok in
  let resolved := step (SupportSettled (Resolved false)) w0 in
  let rejected := step (SupportSettled (Rejected "NotSupportedError")) w0 in
  enabled (SupportSettled (Resolved false)) w0 = true ∧
  enter_ar_listener w0 = true ∧
  (has_class "unsupported" resolved = false ∧
   enter_ar_listener resolved = true ∧
   calls (step ClickEnterAR resolved) =
     calls resolved ++ [RequestSession "immersive-ar"]) ∧
  (has_class "unsupported" rejected = true ∧
   enter_ar_listener rejected = true ∧
   calls (step ClickEnterAR rejected) =
     calls rejected ++ [RequestSession "immersive-ar"]).
Proof. vm_compute. repeat split. Qed.

(** ** No scene ever has a pivot *)

Create HintDb no_pivot.

(** A write that leaves the scene alone keeps [no_pivot]. *)
Ltac writes_off_scene :=
  let w := fresh "w" in
  let H := fresh "H" in
  let sc := fresh "sc" in
  apply respects_modify; intros w H sc; exact (H sc).

Ltac no_pivot_routine :=
  respects_split ltac:(auto with no_pivot); try writes_off_scene.

Lemma tick_no_pivot : respects (keeps no_pivot) tick.
Proof. unfold tick, assign, call. no_pivot_routine. Qed.

Lemma onNoXRDevice_no_pivot : respects (keeps no_pivot) onNoXRDevice.
Proof. unfold onNoXRDevice, classList_add. no_pivot_routine. Qed.

Lemma onXRSessionEnded_no_pivot : respects (keeps no_pivot) onXRSessionEnded.
Proof.
  unfold onXRSessionEnded, assign, call, console_put, classList_remove.
  no_pivot_routine.
Qed.

#[local] Hint Resolve tick_no_pivot onNoXRDevice_no_pivot
  onXRSessionEnded_no_pivot : no_pivot.

Section WithLibrary.

Context {lib : Library}.

Lemma placeModel_no_pivot : respects (keeps no_pivot) placeModel.
Proof. unfold placeModel, assign, call. no_pivot_routine. Qed.

#[local] Hint Resolve placeModel_no_pivot : no_pivot.

Lemma processXRInput_no_pivot frame :
  respects (keeps no_pivot) (processXRInput frame).
Proof. unfold processXRInput, spawn, call. no_pivot_routine. Qed.

#[local] Hint Resolve processXRInput_no_pivot : no_pivot.

Lemma render_view_no_pivot frame view :
  respects (keeps no_pivot) (render_view frame view).
Proof. unfold render_view, assign, call. no_pivot_routine. Qed.

#[local] Hint Resolve render_view_no_pivot : no_pivot.

Lemma onXRFrame_no_pivot time frame :
  respects (keeps no_pivot) (onXRFrame time frame).
Proof.
  unfold onXRFrame, frame_pose, frame_work, mark_stabilized, assign, call,
    classList_add.
  no_pivot_routine.
Qed.

Lemma onSessionStarted_no_pivot : respects (keeps no_pivot) onSessionStarted.
Proof.
  intros w H. unfold onSessionStarted.
  unfold mbind, M_bind, assign, call, classList_add, modify, the, gets, reads.
  cbn. destruct (session (app w)); cbn.
  - intros sc [= <-]. reflexivity.
  - exact H.
Qed.

Lemma placeModel_resumed_no_pivot outcome :
  respects (keeps no_pivot) (placeModel_resumed outcome).
Proof.
  intros w H. unfold placeModel_resumed.
  unfold mbind, M_bind, mret, M_ret, assign, console_put, modify, the, gets, reads.
  destruct outcome as [[|hit rest]|e]; cbn; try exact H.
  destruct (model (app w)) as [m|]; cbn; [|exact H].
  destruct (scene (app w)) as [sc|] eqn:Hsc; cbn; [|exact H].
  assert (Hadd : no_pivot
    (with_app (set_scene (Some (Scene_add ModelRef sc)))
       (with_app (set_model (Some (mkMesh
          (setFromMatrixPosition (Matrix4_fromArray (hitMatrix hit)))
          (quaternion m)))) w))).
  { intros sc' [= <-]. cbn. apply H, Hsc. }
  destruct (camera (app w)); cbn; [|exact Hadd].
  rewrite (H sc Hsc). cbn.
  intros sc' [= <-]. cbn. apply H, Hsc.
Qed.

#[local] Hint Resolve onXRFrame_no_pivot onSessionStarted_no_pivot
  placeModel_resumed_no_pivot : no_pivot.

Lemma dispatch_no_pivot e : respects (keeps no_pivot) (dispatch e).
Proof.
  destruct e as [[b|err]| |[s|err]|[space|err]|time frame|outcome|r|]; cbn;
    unfold init_supported, init_unsupported, onEnterAR, onEnterAR_granted,
      onEnterAR_rejected, onSessionStarted_resumed, spawn, assign,
      console_put, call;
    no_pivot_routine.
Qed.

Lemma step_no_pivot e w : no_pivot w → no_pivot (step e w).
Proof.
  unfold step, spawn. revert w.
  change (respects (keeps no_pivot)
    (catch (dispatch e) (λ e0, modify (with_unhandled (λ l, l ++ [e0]))))).
  pose proof (dispatch_no_pivot e). no_pivot_routine.
Qed.

(** In every world the page can reach, the scene has no pivot: the only
    scene is the one [onSessionStarted] creates, and nothing gives it
    one. *)
Lemma reachable_no_pivot w : reachable w → no_pivot w.
Proof.
  induction 1 as [nav|e w _ IH _].
  - intros sc. unfold boot, spawn, catch, init.
    destruct (xr nav && requestHitTestSource nav)%bool; cbn; discriminate.
  - by apply step_no_pivot.
Qed.

End WithLibrary.

(** ** The objects exist while the session's requests are pending *)

Create HintDb ready.

Ltac keeps_ready :=
  let w := fresh "w" in
  let H := fresh "H" in
  apply respects_modify; intros w H;
  first [ exact H
        | unfold ready in *; cbn in *;
          rewrite ?andb_true_iff in *; intuition ].

Ltac ready_routine :=
  respects_split ltac:(auto with ready); try keeps_ready.

Create HintDb idle.

Ltac logs_idle :=
  let w := fresh "w" in
  apply respects_modify; intros w;
  first [ exists []; split; [cbn; by rewrite app_nil_r | reflexivity]
        | eexists [_]; split; reflexivity ].

Ltac idle_routine :=
  respects_split ltac:(auto with idle); try logs_idle.

Lemma tick_ready : respects (keeps (λ w, ready w = true)) tick.
Proof. unfold tick, assign, call. ready_routine. Qed.

Lemma onNoXRDevice_ready : respects (keeps (λ w, ready w = true)) onNoXRDevice.
Proof. unfold onNoXRDevice, classList_add. ready_routine. Qed.

Lemma onXRSessionEnded_ready :
  respects (keeps (λ w, ready w = true)) onXRSessionEnded.
Proof.
  unfold onXRSessionEnded, assign, call, console_put, classList_remove.
  ready_routine.
Qed.

#[local] Hint Resolve tick_ready onNoXRDevice_ready onXRSessionEnded_ready
  : ready.

Lemma onNoXRDevice_idle : respects (calls_grow is_idle_call) onNoXRDevice.
Proof. unfold onNoXRDevice, classList_add. idle_routine. Qed.

Lemma onXRSessionEnded_idle :
  respects (calls_grow is_idle_call) onXRSessionEnded.
Proof.
  unfold onXRSessionEnded, assign, call, console_put, classList_remove.
  idle_routine.
Qed.

#[local] Hint Resolve onNoXRDevice_idle onXRSessionEnded_idle : idle.

(** A request that is outstanding was made. *)
Lemma outstanding_called (r : Request) (w : World) :
  0 < outstanding r w → ∃ c, c ∈ calls w ∧ request_of c = Some r.
Proof.
  unfold outstanding. intros H.
  destruct (filter (λ x, x = r) (omap request_of (calls w))) as [|x l] eqn:Hf;
    [cbn in H; lia|].
  assert (Hx : x ∈ filter (λ x, x = r) (omap request_of (calls w)))
    by (rewrite Hf; left).
  apply list_elem_of_filter in Hx as [-> Hx].
  apply list_elem_of_omap in Hx as (c & Hc & Hr). eauto.
Qed.

Lemma outstanding_not_idle (r : Request) (w : World) :
  is_loop_request r = true → 0 < outstanding r w →
  forallb is_idle_call (calls w) = false.
Proof.
  intros Hr Ho. destruct (outstanding_called r w Ho) as (c & Hc & Hq).
  apply not_true_is_false. intros Hall.
  rewrite forallb_forall in Hall.
  specialize (Hall c (proj1 (list_elem_of_In _ _) Hc)).
  unfold is_idle_call in Hall. rewrite Hq, Hr in Hall. discriminate.
Qed.

Section Ready.

Context {lib : Library}.

Lemma placeModel_ready : respects (keeps (λ w, ready w = true)) placeModel.
Proof. unfold placeModel, assign, call. ready_routine. Qed.

#[local] Hint Resolve placeModel_ready : ready.

Lemma processXRInput_ready frame :
  respects (keeps (λ w, ready w = true)) (processXRInput frame).
Proof. unfold processXRInput, spawn, call. ready_routine. Qed.

#[local] Hint Resolve processXRInput_ready : ready.

Lemma render_view_ready frame view :
  respects (keeps (λ w, ready w = true)) (render_view frame view).
Proof. unfold render_view, assign, call. ready_routine. Qed.

#[local] Hint Resolve render_view_ready : ready.

Lemma onXRFrame_ready time frame :
  respects (keeps (λ w, ready w = true)) (onXRFrame time frame).
Proof.
  unfold onXRFrame, frame_pose, frame_work, mark_stabilized, assign, call,
    classList_add.
  ready_routine.
Qed.

Lemma onSessionStarted_ready :
  respects (keeps (λ w, ready w = true)) onSessionStarted.
Proof.
  unfold onSessionStarted, assign, call, classList_add. ready_routine.
Qed.

Lemma placeModel_resumed_ready outcome :
  respects (keeps (λ w, ready w = true)) (placeModel_resumed outcome).
Proof. unfold placeModel_resumed, assign, console_put. ready_routine. Qed.

#[local] Hint Resolve onXRFrame_ready onSessionStarted_ready
  placeModel_resumed_ready : ready.

Lemma dispatch_ready e : respects (keeps (λ w, ready w = true)) (dispatch e).
Proof.
  destruct e as [[b|err]| |[s|err]|[space|err]|time frame|outcome|r|]; cbn;
    unfold init_supported, init_unsupported, onEnterAR, onEnterAR_granted,
      onEnterAR_rejected, onSessionStarted_resumed, spawn, assign,
      console_put, call;
    ready_routine.
Qed.

(** Events that answer none of the session's requests make none either,
    a granted session apart. *)
Lemma dispatch_idle e :
  from_option is_loop_request false (awaited e) = false →
  (∀ s, e ≠ SessionSettled (Resolved s)) →
  respects (calls_grow is_idle_call) (dispatch e).
Proof.
  intros Ha Hs.
  destruct e as [[b|err]| |[s|err]|[space|err]|time frame|outcome|r|]; cbn;
    try discriminate; try (by destruct (Hs s));
    unfold init_supported, init_unsupported, onEnterAR,
      onEnterAR_rejected, spawn, assign, console_put, call;
    idle_routine.
Qed.

(** Once a session is granted, everything is there. *)
Lemma session_granted_ready s w :
  ready (world_of (dispatch (SessionSettled (Resolved s)) w)) = true.
Proof. reflexivity. Qed.

Lemma step_ready e w : ready w = true → ready (step e w) = true.
Proof.
  unfold step, spawn. revert w.
  change (respects (keeps (λ w, ready w = true))
    (catch (dispatch e) (λ e0, modify (with_unhandled (λ l, l ++ [e0]))))).
  pose proof (dispatch_ready e). ready_routine.
Qed.

(** In every world the page can reach, either the session and its
    objects exist, or no reference space, frame or hit test has been
    requested yet. *)
Lemma reachable_ready_or_idle w :
  reachable w → ready w = true ∨ forallb is_idle_call (calls w) = true.
Proof.
  induction 1 as [nav|e w _ IH Hen].
  - right. unfold boot, spawn, catch, init.
    by destruct (xr nav && requestHitTestSource nav)%bool.
  - destruct (from_option is_loop_request false (awaited e)) eqn:Hl.
    + left. apply step_ready. destruct IH as [IH|IH]; [exact IH|].
      unfold enabled in Hen. destruct (awaited e) as [r|]; [|discriminate].
      apply bool_decide_eq_true in Hen.
      by rewrite (outstanding_not_idle r w Hl Hen) in IH.
    + assert (Hcase : (∃ s, e = SessionSettled (Resolved s)) ∨
                      (∀ s, e ≠ SessionSettled (Resolved s))).
      { destruct e as [a| |[s|err]|a|time frame|o|r|];
          first [left; eexists; reflexivity | right; intros s'; discriminate]. }
      destruct Hcase as [[s ->]|Hs].
      * left. unfold step, spawn, catch.
        pose proof (session_granted_ready s w) as Hr.
        by destruct (dispatch (SessionSettled (Resolved s)) w).
      * destruct IH as [IH|IH]; [left; by apply step_ready|right].
        assert (Hd : respects (calls_grow is_idle_call) (dispatch e)).
        { apply dispatch_idle; [exact Hl | exact Hs]. }
        destruct (Hd w) as (l & Hc & Hl').
        unfold step, spawn, catch.
        destruct (dispatch e w) as [[] w'|err w']; cbn in Hc |- *;
          rewrite Hc, forallb_app, IH, Hl'; reflexivity.
Qed.

(** So whenever a reference space, a frame or a hit test is pending, the
    session and its objects exist. *)
Lemma pending_ready r w :
  reachable w → is_loop_request r = true → 0 < outstanding r w →
  ready w = true.
Proof.
  intros Hr Hl Ho. destruct (reachable_ready_or_idle w Hr) as [H|H]; [exact H|].
  by rewrite (outstanding_not_idle r w Hl Ho) in H.
Qed.

End Ready.

(** ** Placing the model (C1) *)

(** The rest of [placeModel] on a list of hits with a first entry, in a
    world where the model, the scene and the camera exist and the scene
    has no pivot. *)
Lemma placeModel_resumed_places {lib : Library}
    (w : World) (hit : XRHitResult) (m : Mesh) (sc : Scene)
    (cam : PerspectiveCamera) :
  model (app w) = Some m →
  scene (app w) = Some sc →
  pivot sc = None →
  camera (app w) = Some cam →
  let p := mkVector3 (m12 (hitMatrix hit)) (m13 (hitMatrix hit))
             (m14 (hitMatrix hit)) in
  let target := mkVector3 (m12 (matrix cam)) (v_y p) (m14 (matrix cam)) in
  ∀ rest,
    placeModel_resumed (HitTestResolved (hit :: rest)) w =
      Ok tt (with_app (set_model (Some (mkMesh p (Object3D_lookAt p target))))
               (with_app (set_scene (Some (Scene_add ModelRef sc)))
                  (with_app (set_model (Some (mkMesh p (quaternion m)))) w))).
Proof.
  intros Hm Hsc Hp Hcam p target rest.
  unfold placeModel_resumed.
  unfold mbind, M_bind, mret, M_ret, assign, modify, the, gets, reads.
  cbn. rewrite Hm. cbn. rewrite Hsc. cbn. rewrite Hcam. cbn. rewrite Hp.
  reflexivity.
Qed.

(** C1. In any world the page can reach with a hit test pending, when the
    hit test resolves to a list with at least one entry the rest of
    [placeModel] returns normally and leaves the same world whatever
    follows the first entry. In that world the model's position is the
    translation of the first entry's matrix (elements 12, 13 and 14), the
    model is in the scene, and its orientation is the one [lookAt] gives
    it at that position for the target made of the camera's current x and
    z and the model's own y. *)
Theorem placeModel_places_on_nearest_hit {lib : Library}
    (w : World) (hit : XRHitResult) :
  reachable w →
  0 < outstanding HitTestRequest w →
  let p := mkVector3 (m12 (hitMatrix hit)) (m13 (hitMatrix hit))
             (m14 (hitMatrix hit)) in
  ∃ cam sc w',
    camera (app w) = Some cam ∧
    (∀ rest, placeModel_resumed (HitTestResolved (hit :: rest)) w = Ok tt w') ∧
    model (app w') =
      Some (mkMesh p
              (Object3D_lookAt p
                 (mkVector3 (m12 (matrix cam)) (v_y p) (m14 (matrix cam))))) ∧
    scene (app w') = Some sc ∧ ModelRef ∈ children sc ∧
    camera (app w') = Some cam.
Proof.
  intros Hr Ho p.
  pose proof (pending_ready HitTestRequest w Hr eq_refl Ho) as Hready.
  unfold ready in Hready. rewrite !andb_true_iff in Hready.
  destruct Hready as [[[[[_ _] Hsc] Hm] Hcam] _].
  destruct (model (app w)) as [m|] eqn:Em; [|discriminate].
  destruct (scene (app w)) as [sc|] eqn:Esc; [|discriminate].
  destruct (camera (app w)) as [cam|] eqn:Ecam; [|discriminate].
  pose proof (reachable_no_pivot w Hr sc Esc) as Hp.
  exists cam, (Scene_add ModelRef sc). eexists.
  split; [reflexivity|]. split.
  - apply (placeModel_resumed_places w hit m sc cam Em Esc Hp Ecam).
  - cbn. repeat split; [|exact Ecam].
    unfold Scene_add. cbn. apply elem_of_app. right. left.
Qed.

(** The world in which the first tap of the sample session is answered. *)
Lemma placeModel_places_on_nearest_hit_witness :
  let w := step (lib := Library_sample) (AnimationFrame 16 frame_tap) reticle_shown in
  ∃ cam sc w',
    camera (app w) = Some cam ∧
    (∀ rest,
       placeModel_resumed (lib := Library_sample)
         (HitTestResolved (hit1 :: rest)) w = Ok tt w') ∧
    model (app w') =
      Some (mkMesh (mkVector3 4 5 6)
              (Object3D_lookAt (Library := Library_sample)
                 (mkVector3 4 5 6)
                 (mkVector3 (m12 (matrix cam)) 5 (m14 (matrix cam))))) ∧
    scene (app w') = Some sc ∧ ModelRef ∈ children sc ∧
    camera (app w') = Some cam.
Proof.
  intros w.
  apply (placeModel_places_on_nearest_hit (lib := Library_sample) w hit1).
  - unfold w, reticle_shown, in_session, enter_session, run. cbn [foldl].
    repeat (apply reachable_step; [|vm_compute; reflexivity]).
    apply reachable_boot.
  - vm_compute. lia.
Defined.

(** In that world the camera stands at (-1, -2, -3) and the first hit is
    at (4, 5, 6): the model goes there and looks at (-1, 5, -3), whatever
    the second hit is. *)
Lemma sample_placement :
  let w := step (lib := Library_sample) (AnimationFrame 16 frame_tap) reticle_shown in
  let w1 := step (lib := Library_sample) (HitTestSettled (HitTestResolved [hit1; hit2])) w in
  let w2 := step (lib := Library_sample) (HitTestSettled (HitTestResolved [hit1])) w in
  model (app w1) =
    Some (mkMesh (mkVector3 4 5 6)
            (Object3D_lookAt (Library := Library_sample)
               (mkVector3 4 5 6) (mkVector3 (-1) 5 (-3)))) ∧
  w1 = w2.
Proof. vm_compute. split; reflexivity. Qed.

(** ** The frame callback re-arms itself first (C3) *)

Lemma frame_pose_run (frame : XRFrame) (w : World) :
  frame_pose frame w =
    Ok (has_pose frame) (with_calls (λ l, l ++ [pose_call frame]) w).
Proof.
  unfold frame_pose, has_pose, pose_call.
  destruct (hasGetDevicePose frame); reflexivity.
Qed.

Lemma tick_run (w : World) (s : XRSession) :
  session (app w) = Some s →
  tick w =
    Ok tt (with_app (set_rafId (Some (next_handle w)))
             (with_next_handle S
                (with_calls (λ l, l ++ [RequestAnimationFrame]) w))).
Proof.
  intros H. unfold tick, mbind, M_bind, the. rewrite H. reflexivity.
Qed.

Lemma tick_without_session (w : World) :
  session (app w) = None → tick w = Throw "TypeError" w.
Proof.
  intros H. unfold tick, mbind, M_bind, the. rewrite H. reflexivity.
Qed.

(** With a session, [onXRFrame] is the frame's work run in the re-armed
    world, or nothing more when there is no pose. *)
Lemma onXRFrame_run {lib : Library} time frame (w : World) (s : XRSession) :
  session (app w) = Some s →
  onXRFrame time frame w =
    if has_pose frame then frame_work frame (rearmed frame w)
    else Ok tt (rearmed frame w).
Proof.
  intros H. unfold onXRFrame, mbind, M_bind.
  rewrite frame_pose_run.
  rewrite (tick_run _ s) by exact H.
  destruct (has_pose frame); reflexivity.
Qed.

Create HintDb frame_calls.

Ltac logs_frame_work :=
  let w := fresh "w" in
  apply respects_modify; intros w;
  first [ exists []; split; [cbn; by rewrite app_nil_r | reflexivity]
        | eexists [_]; split; reflexivity ].

Ltac frame_calls_routine :=
  respects_split ltac:(auto with frame_calls); try logs_frame_work.

Create HintDb frame_handles.

Ltac keeps_handles :=
  let w := fresh "w" in
  apply respects_modify; intros w; reflexivity.

Ltac frame_handles_routine :=
  respects_split ltac:(auto with frame_handles); try keeps_handles.

Section FrameWork.

Context {lib : Library}.

Lemma placeModel_calls : respects (calls_grow is_frame_work) placeModel.
Proof. unfold placeModel, assign, call. frame_calls_routine. Qed.

#[local] Hint Resolve placeModel_calls : frame_calls.

Lemma processXRInput_calls frame :
  respects (calls_grow is_frame_work) (processXRInput frame).
Proof. unfold processXRInput, spawn, call. frame_calls_routine. Qed.

#[local] Hint Resolve processXRInput_calls : frame_calls.

Lemma render_view_calls frame view :
  respects (calls_grow is_frame_work) (render_view frame view).
Proof. unfold render_view, assign, call. frame_calls_routine. Qed.

#[local] Hint Resolve render_view_calls : frame_calls.

Lemma frame_work_calls frame :
  respects (calls_grow is_frame_work) (frame_work frame).
Proof. unfold frame_work, mark_stabilized, assign, call, classList_add.
  frame_calls_routine. Qed.

Lemma placeModel_handles : respects (same frame_handles) placeModel.
Proof. unfold placeModel, assign, call. frame_handles_routine. Qed.

#[local] Hint Resolve placeModel_handles : frame_handles.

Lemma processXRInput_handles frame :
  respects (same frame_handles) (processXRInput frame).
Proof. unfold processXRInput, spawn, call. frame_handles_routine. Qed.

#[local] Hint Resolve processXRInput_handles : frame_handles.

Lemma render_view_handles frame view :
  respects (same frame_handles) (render_view frame view).
Proof. unfold render_view, assign, call. frame_handles_routine. Qed.

#[local] Hint Resolve render_view_handles : frame_handles.

Lemma frame_work_handles frame :
  respects (same frame_handles) (frame_work frame).
Proof. unfold frame_work, mark_stabilized, assign, call, classList_add.
  frame_handles_routine. Qed.

End FrameWork.

(** With a session, the calls [onXRFrame] adds are the pose query, the
    request for the next frame, and then only calls of the frame's work;
    the handle of the requested frame is the pending one at the end. *)
Lemma onXRFrame_rearms {lib : Library}
    (time : float) (frame : XRFrame) (w : World) (s : XRSession) :
  session (app w) = Some s →
  let r := onXRFrame time frame w in
  (∃ work,
     calls (world_of r) =
       calls w ++ pose_call frame :: RequestAnimationFrame :: work ∧
     forallb is_frame_work work = true) ∧
  rafId (app (world_of r)) = Some (next_handle w) ∧
  next_handle (world_of r) = S (next_handle w).
Proof.
  intros Es r. unfold r. rewrite (onXRFrame_run _ _ _ s Es).
  destruct (has_pose frame) eqn:Hp.
  - destruct (frame_work_calls frame (rearmed frame w)) as [work [Hc Hw]].
    pose proof (frame_work_handles frame (rearmed frame w)) as Hh.
    unfold same, frame_handles in Hh. injection Hh as Hraf Hnext.
    split; [|split].
    + exists work. split; [|exact Hw]. rewrite Hc. cbn.
      by rewrite <- !app_assoc.
    + rewrite Hraf. reflexivity.
    + rewrite Hnext. reflexivity.
  - split; [|split].
    + exists []. split; [|reflexivity]. cbn. by rewrite <- !app_assoc.
    + reflexivity.
    + reflexivity.
Qed.

(** A frame callback that requests a frame uses up one request and makes
    one: a frame stays pending. *)
Lemma frame_stays_pending {lib : Library}
    (time : float) (frame : XRFrame) (w : World) (work : list Call) :
  calls (world_of (onXRFrame time frame w)) =
    calls w ++ pose_call frame :: RequestAnimationFrame :: work →
  0 < outstanding FrameRequest w →
  0 < outstanding FrameRequest (step (AnimationFrame time frame) w).
Proof.
  intros Hc Ho. unfold outstanding in *.
  assert (Hcalls : calls (step (AnimationFrame time frame) w) =
                   calls w ++ pose_call frame :: RequestAnimationFrame :: work).
  { rewrite <- Hc. unfold step, spawn, catch. cbn.
    by destruct (onXRFrame time frame w). }
  assert (Hans : answered (step (AnimationFrame time frame) w) =
                 answered (world_of (onXRFrame time frame w)) ++ [FrameRequest]).
  { unfold step, spawn, catch. cbn.
    by destruct (onXRFrame time frame w). }
  assert (Hsame : answered (world_of (onXRFrame time frame w)) = answered w).
  { assert (H : respects (same answered) (onXRFrame time frame)).
    { unfold onXRFrame, frame_pose, frame_work, mark_stabilized, render_view,
        processXRInput, placeModel, tick, spawn, assign, call, classList_add.
      respects_split idtac;
        (let w := fresh "w" in apply respects_modify; intros w; reflexivity). }
    apply H. }
  rewrite Hcalls, Hans, Hsame.
  rewrite omap_app, !filter_app, !length_app.
  assert (Hq : request_of (pose_call frame) = None)
    by (unfold pose_call; by destruct (hasGetDevicePose frame)).
  cbn [omap list_omap]. rewrite Hq. cbn.
  repeat case_decide; try done. cbn. lia.
Qed.

(** C3. In any world the page can reach with a frame requested, every
    call of [onXRFrame] first asks the frame for the pose and then,
    before anything else, requests the next animation frame: the calls
    it adds are the pose query, the request, and after them only calls of
    the frame's work (viewer pose, viewport, camera, reticle, input, hit
    test, render). This holds whether the work returns or throws; the
    handle of the requested frame is the pending one at the end, and
    after the callback a frame is requested again. When the frame has no
    pose, the callback returns normally having made just those two
    calls: nothing is rendered and the application is otherwise as it
    was. *)
Theorem next_frame_requested_first {lib : Library}
    (time : float) (frame : XRFrame) (w : World) :
  reachable w →
  0 < outstanding FrameRequest w →
  let r := onXRFrame time frame w in
  (∃ work,
     calls (world_of r) =
       calls w ++ pose_call frame :: RequestAnimationFrame :: work ∧
     forallb is_frame_work work = true) ∧
  rafId (app (world_of r)) = Some (next_handle w) ∧
  0 < outstanding FrameRequest (step (AnimationFrame time frame) w) ∧
  (has_pose frame = false →
   r = Ok tt (rearmed frame w) ∧
   app (world_of r) = set_rafId (Some (next_handle w)) (app w) ∧
   calls (world_of r) = calls w ++ [pose_call frame; RequestAnimationFrame]).
Proof.
  intros Hr Ho r.
  pose proof (pending_ready FrameRequest w Hr eq_refl Ho) as Hready.
  unfold ready in Hready. rewrite !andb_true_iff in Hready.
  destruct Hready as [[[[[Hs _] _] _] _] _].
  destruct (session (app w)) as [s|] eqn:Es; [|discriminate].
  destruct (onXRFrame_rearms time frame w s Es) as ((work & Hc & Hw) & Hraf & _).
  split; [by exists work|]. split; [exact Hraf|]. split.
  - by apply (frame_stays_pending time frame w work).
  - intros Hp. unfold r. rewrite (onXRFrame_run _ _ _ s Es), Hp.
    split; [reflexivity|]. split; [reflexivity|].
    cbn. by rewrite <- !app_assoc.
Qed.

(** The frame without a pose, in the sample session. *)
Lemma next_frame_requested_first_witness :
  let r := onXRFrame (lib := Library_sample) 0 frame_no_pose reticle_shown in
  (∃ work,
     calls (world_of r) =
       calls reticle_shown ++
         pose_call frame_no_pose :: RequestAnimationFrame :: work ∧
     forallb is_frame_work work = true) ∧
  rafId (app (world_of r)) = Some (next_handle reticle_shown) ∧
  0 < outstanding FrameRequest
        (step (lib := Library_sample) (AnimationFrame 0 frame_no_pose)
           reticle_shown) ∧
  r = Ok tt (rearmed frame_no_pose reticle_shown) ∧
  app (world_of r) =
    set_rafId (Some (next_handle reticle_shown)) (app reticle_shown) ∧
  calls (world_of r) =
    calls reticle_shown ++ [pose_call frame_no_pose; RequestAnimationFrame].
Proof.
  destruct (next_frame_requested_first (lib := Library_sample) 0 frame_no_pose
              reticle_shown) as (H1 & H2 & H3 & H4).
  - unfold reticle_shown, in_session, enter_session, run. cbn [foldl].
    repeat (apply reachable_step; [|vm_compute; reflexivity]).
    apply reachable_boot.
  - vm_compute. lia.
  - destruct H4 as (H4 & H5 & H6); [reflexivity|].
    exact (conj H1 (conj H2 (conj H3 (conj H4 (conj H5 H6))))).
Defined.

(** Without a session the request itself fails, before any work. *)
Lemma onXRFrame_without_session {lib : Library} time frame (w : World) :
  session (app w) = None →
  onXRFrame time frame w =
    Throw "TypeError" (with_calls (λ l, l ++ [pose_call frame]) w).
Proof.
  intros H. unfold onXRFrame, mbind, M_bind.
  rewrite frame_pose_run, tick_without_session by exact H.
  reflexivity.
Qed.

(** ** The stabilized transition (C2) *)

Create HintDb stabilized.

Lemma has_class_add_other (c d : string) (w : World) :
  c ≠ d →
  has_class c (with_classList (λ s, s ∪ {[d]}) w) = has_class c w.
Proof. intros H. unfold has_class. cbn. apply bool_decide_ext. set_solver. Qed.

Lemma has_class_add_same (c : string) (w : World) :
  has_class c (with_classList (λ s, s ∪ {[c]}) w) = true.
Proof. unfold has_class. cbn. apply bool_decide_eq_true. set_solver. Qed.

(** A write that touches neither the flag nor the "stabilized" class. *)
Ltac writes_off_stabilized :=
  let w := fresh "w" in
  apply respects_modify; intros w;
  first [ reflexivity
        | unfold same, stabilized_view; cbn; f_equal;
          apply has_class_add_other; discriminate ].

Ltac stabilized_routine :=
  respects_split ltac:(auto with stabilized); try writes_off_stabilized.

Lemma tick_stabilized : respects (same stabilized_view) tick.
Proof. unfold tick, assign, call. stabilized_routine. Qed.

Lemma onNoXRDevice_stabilized : respects (same stabilized_view) onNoXRDevice.
Proof. unfold onNoXRDevice, classList_add. stabilized_routine. Qed.

#[local] Hint Resolve tick_stabilized onNoXRDevice_stabilized : stabilized.

Lemma mark_stabilized_run (w : World) :
  mark_stabilized w =
    match reticle (app w) with
    | None => Throw "TypeError" w
    | Some ret =>
        if (visible ret && negb (is_stabilized w))%bool
        then Ok tt (with_classList (λ s, s ∪ {["stabilized"]})
                      (with_app (set_stabilized (Some true)) w))
        else Ok tt w
    end.
Proof.
  unfold mark_stabilized, mbind, M_bind, the, gets, reads, is_stabilized.
  destruct (reticle (app w)) as [ret|]; [|reflexivity].
  destruct (visible ret && negb (truthy (stabilized (app w))))%bool; reflexivity.
Qed.

Section Stabilized.

Context {lib : Library}.

Lemma placeModel_stabilized : respects (same stabilized_view) placeModel.
Proof. unfold placeModel, assign, call. stabilized_routine. Qed.

#[local] Hint Resolve placeModel_stabilized : stabilized.

Lemma processXRInput_stabilized frame :
  respects (same stabilized_view) (processXRInput frame).
Proof. unfold processXRInput, spawn, call. stabilized_routine. Qed.

#[local] Hint Resolve processXRInput_stabilized : stabilized.

Lemma render_view_stabilized frame view :
  respects (same stabilized_view) (render_view frame view).
Proof. unfold render_view, assign, call. stabilized_routine. Qed.

#[local] Hint Resolve render_view_stabilized : stabilized.

Lemma onSessionStarted_stabilized :
  respects (same stabilized_view) onSessionStarted.
Proof.
  unfold onSessionStarted, assign, call, classList_add. stabilized_routine.
Qed.

Lemma placeModel_resumed_stabilized outcome :
  respects (same stabilized_view) (placeModel_resumed outcome).
Proof.
  unfold placeModel_resumed, assign, console_put. stabilized_routine.
Qed.

#[local] Hint Resolve onSessionStarted_stabilized
  placeModel_resumed_stabilized : stabilized.

(** Every event but a frame and the end of the session leaves the flag
    and the class as they are. *)
Lemma step_other_stabilized e w :
  (∀ time frame, e ≠ AnimationFrame time frame) → e ≠ SessionEnd →
  stabilized_view (step e w) = stabilized_view w.
Proof.
  intros Hf He. unfold step, spawn. revert w.
  change (respects (same stabilized_view)
    (catch (dispatch e) (λ e0, modify (with_unhandled (λ l, l ++ [e0]))))).
  destruct e as [[b|err]| |[s|err]|[space|err]|time frame|outcome|r|]; cbn;
    try (by destruct (Hf time frame)); try (by destruct He);
    unfold init_supported, init_unsupported, onEnterAR, onEnterAR_granted,
      onEnterAR_rejected, onSessionStarted_resumed, spawn, assign,
      console_put, call;
    stabilized_routine.
Qed.

(** What a frame does to the flag and the class: it sets both exactly
    when it has a pose, runs to its end, finds the reticle visible there
    and the application is not yet stabilized. *)
Lemma onXRFrame_stabilized time frame w :
  stabilized_view (world_of (onXRFrame time frame w)) =
    if (sees_reticle time frame w && negb (is_stabilized w))%bool
    then (Some true, true)
    else stabilized_view w.
Proof.
  unfold sees_reticle.
  destruct (session (app w)) as [s|] eqn:Hs.
  2: { rewrite onXRFrame_without_session by exact Hs. cbn.
       rewrite andb_false_r. reflexivity. }
  rewrite (onXRFrame_run _ _ _ s Hs).
  destruct (has_pose frame); [|reflexivity].
  cbn [andb]. unfold frame_work, mbind, M_bind, call, modify.
  destruct (viewerPose frame) as [vp|]; [|reflexivity].
  set (w3 := with_calls _ (rearmed frame w)).
  assert (Hloop : respects (same stabilized_view)
                    (for_of (views vp) (render_view frame)))
    by stabilized_routine.
  specialize (Hloop w3).
  destruct (for_of (views vp) (render_view frame) w3) as [[] w4|e w4];
    cbn in Hloop |- *; [|exact Hloop].
  unfold same in Hloop. change (stabilized_view w3) with (stabilized_view w) in Hloop.
  assert (Hst : is_stabilized w4 = is_stabilized w).
  { unfold is_stabilized. by injection Hloop as -> _. }
  rewrite mark_stabilized_run. unfold reticle_visible.
  destruct (reticle (app w4)) as [ret|] eqn:Hret; [|exact Hloop].
  rewrite Hst.
  destruct (visible ret) eqn:Hv, (is_stabilized w) eqn:Hw; cbn;
    rewrite ?Hret, ?Hv; cbn; try exact Hloop.
  unfold stabilized_view. cbn. f_equal. apply has_class_add_same.
Qed.

Lemma step_frame_stabilized time frame w :
  stabilized_view (step (AnimationFrame time frame) w) =
    if (sees_reticle time frame w && negb (is_stabilized w))%bool
    then (Some true, true)
    else stabilized_view w.
Proof.
  rewrite <- onXRFrame_stabilized. unfold step, spawn, catch. cbn.
  destruct (onXRFrame time frame w); reflexivity.
Qed.

End Stabilized.

Section Once.

Context {lib : Library}.

Lemma run_snoc es e w : run (es ++ [e]) w = step e (run es w).
Proof. unfold run. by rewrite foldl_app. Qed.

Lemma run_take_S es n e w :
  es !! n = Some e → run (take (S n) es) w = step e (run (take n es) w).
Proof. intros H. by rewrite (take_S_r _ _ _ H), run_snoc. Qed.

Lemma stabilizing_frame es w n time frame :
  es !! n = Some (AnimationFrame time frame) →
  stabilizing es w n ↔ sees_reticle time frame (run (take n es) w) = true.
Proof.
  intros H. unfold stabilizing. split.
  - intros (t & f & Hn & Hs). rewrite H in Hn. by injection Hn as <- <-.
  - intros Hs. eauto.
Qed.

(** The state after the first [n] events of a session, in terms of the
    frames among them. *)
Lemma stabilized_after es w n :
  Forall (λ e, e ≠ SessionEnd) es →
  is_stabilized w = false →
  has_class "stabilized" w = false →
  n ≤ length es →
  (is_stabilized (run (take n es) w) = true ↔
     ∃ i, i < n ∧ stabilizing es w i) ∧
  has_class "stabilized" (run (take n es) w) =
    is_stabilized (run (take n es) w).
Proof.
  intros Hend Hflag Hclass. induction n as [|n IH]; intros Hn.
  - change (run (take 0 es) w) with w.
    rewrite Hflag, Hclass. split; [|reflexivity].
    split; [discriminate | intros (i & Hi & _); lia].
  - destruct (lookup_lt_is_Some_2 es n) as [e He]; [lia|].
    destruct IH as [IHs IHc]; [lia|].
    rewrite (run_take_S _ _ _ _ He).
    set (before := run (take n es) w) in *.
    assert (∃ good : bool,
      (good = true ↔ stabilizing es w n) ∧
      stabilized_view (step e before) =
        if (good && negb (is_stabilized before))%bool
        then (Some true, true) else stabilized_view before)
      as (good & Hgood & Hview).
    { assert (Hnot : e ≠ SessionEnd).
      { intros ->. rewrite Forall_lookup in Hend. by apply (Hend n SessionEnd). }
      destruct e as [a| |a|a|time frame|o|r|].
      5: { exists (sees_reticle time frame before). split.
           - symmetry. apply (stabilizing_frame _ _ _ _ _ He).
           - apply step_frame_stabilized. }
      all: exists false; (split;
        [ split; [discriminate|];
          intros (t & f & Hl & _); rewrite He in Hl; discriminate
        | try (by destruct Hnot); by apply step_other_stabilized ]). }
    assert (Hflag' : is_stabilized (step e before) =
              (good && negb (is_stabilized before) || is_stabilized before)%bool).
    { transitivity (truthy (fst (stabilized_view (step e before))));
        [reflexivity|].
      rewrite Hview.
      by destruct good, (is_stabilized before) eqn:Hb; cbn; rewrite ?Hb. }
    assert (Hclass' : has_class "stabilized" (step e before) =
              (good && negb (is_stabilized before)
               || has_class "stabilized" before)%bool).
    { transitivity (snd (stabilized_view (step e before))); [reflexivity|].
      rewrite Hview.
      by destruct good, (is_stabilized before). }
    rewrite Hclass', Hflag', IHc. split; [|reflexivity].
    destruct good;
      [assert (Hg' : stabilizing es w n) by (by apply Hgood)
      |assert (Hg' : ¬ stabilizing es w n) by (intros Hs; by apply Hgood in Hs)];
      destruct (is_stabilized before) eqn:Hb; cbn.
    + split; [intros _|reflexivity]. exists n. split; [lia | exact Hg'].
    + split; [intros _|reflexivity]. exists n. split; [lia | exact Hg'].
    + split; [intros _|reflexivity].
      destruct (proj1 IHs eq_refl) as (i & Hi & Hs). exists i. split; [lia|done].
    + split; [discriminate|].
      intros (i & Hi & Hs). apply IHs.
      destruct (decide (i = n)) as [->|]; [done|]. exists i. split; [lia|done].
Qed.

End Once.

(** C2, as stated, fails on a frame without a pose. In the sample
    session the reticle has found a surface and is visible, the
    application is not yet stabilized, and the next frame callback, the
    first one ever to run with the reticle visible, has no viewer pose:
    it returns before the test, so the flag is not set and the class is
    not added. *)
Lemma frame_without_pose_does_not_stabilize :
  let e := AnimationFrame 0 frame_no_pose in
  let after := step (lib := Library_sample) e reticle_shown in
  enabled e reticle_shown = true ∧
  reticle_visible reticle_shown = true ∧
  is_stabilized reticle_shown = false ∧
  reticle_visible after = true ∧
  is_stabilized after = false ∧
  has_class "stabilized" after = false ∧
  fires (lib := Library_sample) e reticle_shown = false.
Proof. vm_compute. repeat split. Qed.

(** C2, amended. Take any stretch of events in which the session does
    not end, starting where the application is not stabilized and the
    body lacks the "stabilized" class. An event of the stretch turns the
    application stabilized exactly when it is the first frame callback
    that has a viewer pose, runs to its end and finds the reticle visible
    there. From that frame on, and not before, the flag is set; and after
    every event the body has the "stabilized" class exactly when the flag
    is set. So the transition happens at most once and is never undone
    before the session ends. *)
Theorem stabilized_exactly_once {lib : Library}
    (es : list Event) (w : World) (n : nat) (e : Event) :
  Forall (λ e, e ≠ SessionEnd) es →
  is_stabilized w = false →
  has_class "stabilized" w = false →
  es !! n = Some e →
  let before := run (take n es) w in
  let after := step e before in
  (fires e before = true ↔
     stabilizing es w n ∧ ∀ i, i < n → ¬ stabilizing es w i) ∧
  (is_stabilized after = true ↔ ∃ i, i ≤ n ∧ stabilizing es w i) ∧
  has_class "stabilized" after = is_stabilized after.
Proof.
  intros Hend Hflag Hclass He before after.
  pose proof (lookup_lt_Some _ _ _ He) as Hlen.
  destruct (stabilized_after es w n Hend Hflag Hclass) as [Hb _]; [lia|].
  destruct (stabilized_after es w (S n) Hend Hflag Hclass) as [Ha Hc]; [lia|].
  rewrite (run_take_S _ _ _ _ He) in Ha, Hc. fold before in Hb, Ha, Hc.
  fold after in Ha, Hc.
  split; [|split; [|exact Hc]].
  - unfold fires. fold after. rewrite andb_true_iff, negb_true_iff. split.
    + intros [Hnb Hna]. apply Ha in Hna as (i & Hi & Hs).
      assert (Hnone : ∀ j, j < n → ¬ stabilizing es w j).
      { intros j Hj Hsj.
        assert (is_stabilized before = true) by (apply Hb; eauto).
        congruence. }
      split; [|exact Hnone].
      destruct (decide (i = n)) as [->|]; [done|].
      destruct (Hnone i); [lia | done].
    + intros [Hs Hnone]. split.
      * destruct (is_stabilized before) eqn:Hsb; [|reflexivity].
        destruct (proj1 Hb eq_refl) as (i & Hi & Hsi). by destruct (Hnone i).
      * apply Ha. exists n. split; [lia | done].
  - rewrite Ha. split; intros (i & Hi & Hs); exists i; (split; [lia | done]).
Qed.

(** In the sample stretch the third event, the first frame with a pose,
    is the one that stabilizes. *)
Lemma stabilized_exactly_once_witness :
  let e := AnimationFrame 16 frame_tap in
  let before := run (lib := Library_sample) (take 2 session_events) in_session in
  let after := step (lib := Library_sample) e before in
  (fires (lib := Library_sample) e before = true ↔
     stabilizing (lib := Library_sample) session_events in_session 2 ∧
     ∀ i, i < 2 → ¬ stabilizing (lib := Library_sample) session_events in_session i) ∧
  (is_stabilized after = true ↔
     ∃ i, i ≤ 2 ∧ stabilizing (lib := Library_sample) session_events in_session i) ∧
  has_class "stabilized" after = is_stabilized after.
Proof.
  apply (stabilized_exactly_once (lib := Library_sample) session_events
           in_session 2 (AnimationFrame 16 frame_tap)).
  - repeat constructor; discriminate.
  - vm_compute. reflexivity.
  - vm_compute. reflexivity.
  - reflexivity.
Defined.

(** There the transition does fire at that frame, and the fourth event,
    another frame with the reticle visible, does not fire it again. *)
Lemma sample_session_fires_once :
  fires (lib := Library_sample) (AnimationFrame 16 frame_tap)
    (run (lib := Library_sample) (take 2 session_events) in_session) = true ∧
  fires (lib := Library_sample) (AnimationFrame 32 frame_tap)
    (run (lib := Library_sample) (take 3 session_events) in_session) = false ∧
  is_stabilized (run (lib := Library_sample) session_events in_session) = true.
Proof. vm_compute. repeat split. Qed.

(** ** Input processing *)

Lemma placeModel_run {lib : Library} (w : World) (s : XRSession) :
  session (app w) = Some s →
  let r := Raycaster_setFromCamera 0 0 (camera (app w)) in
  placeModel w =
    Ok tt (with_calls (λ l, l ++ [RequestHitTest (mkXRRay (origin r) (direction r))])
             (with_app (set_raycaster (Some (mkRaycaster (Some r))))
                (with_app (set_raycaster
                   (Some (default (mkRaycaster None) (raycaster (app w))))) w))).
Proof.
  intros H r. unfold placeModel, mbind, M_bind, gets, reads.
  rewrite H. reflexivity.
Qed.

(** X6. [processXRInput] never throws and never lets an error of
    [placeModel] escape. It looks at the first input source whose
    [targetRayMode] is "screen" and at no other: without one it does
    nothing at all; with one it asks for that source's pose, and it
    requests a hit test, a single one, exactly when that pose is not
    null and there is a session. When no hit test is requested the
    application object is left as it was. *)
Theorem processXRInput_decides {lib : Library} (frame : XRFrame) (w : World) :
  let r := processXRInput frame w in
  returned r = true ∧
  unhandled (world_of r) = unhandled w ∧
  (∃ ray,
     calls (world_of r) =
       calls w ++
       match first_screen frame with
       | None => []
       | Some source =>
           GetPose ::
           (if (is_some (targetRayPose source) &&
                is_some (session (app w)))%bool
            then [RequestHitTest ray] else [])
       end) ∧
  ((tapped frame && is_some (session (app w)))%bool = false →
   app (world_of r) = app w).
Proof.
  cbv zeta. unfold processXRInput, tapped, first_screen.
  match goal with
  | |- context [filter ?P (inputSources frame)] =>
      destruct (filter P (inputSources frame)) as [|source rest]
  end; cbn.
  { split; [reflexivity|]. split; [reflexivity|]. split; [|reflexivity].
    exists (mkXRRay (mkVector3 0 0 0) (mkVector3 0 0 0)).
    by rewrite app_nil_r. }
  unfold mbind, M_bind, call, modify, spawn, catch.
  destruct (targetRayPose source) as [pose|]; cbn.
  2: { split; [reflexivity|]. split; [reflexivity|]. split; [|reflexivity].
       by exists (mkXRRay (mkVector3 0 0 0) (mkVector3 0 0 0)). }
  destruct (session (app w)) as [s|] eqn:Hs; cbn.
  - rewrite (placeModel_run _ s) by exact Hs. cbn.
    split; [reflexivity|]. split; [reflexivity|]. split; [|discriminate].
    eexists. by rewrite <- app_assoc.
  - unfold placeModel, mbind, M_bind, gets, reads. cbn. rewrite Hs. cbn.
    split; [reflexivity|]. split; [reflexivity|]. split; [|reflexivity].
    by exists (mkXRRay (mkVector3 0 0 0) (mkVector3 0 0 0)).
Qed.

(** ** A frame, view by view *)

Section ViewByView.

Context {lib : Library}.

Lemma processXRInput_run frame (w : World) (s : XRSession) (c : PerspectiveCamera) :
  session (app w) = Some s →
  camera (app w) = Some c →
  ∃ w',
    processXRInput frame w = Ok tt w' ∧
    calls w' = calls w ++ input_calls frame c ∧
    renderer (app w') = renderer (app w) ∧
    camera (app w') = camera (app w) ∧
    reticle (app w') = reticle (app w) ∧
    session (app w') = session (app w).
Proof.
  intros Hs Hc. unfold processXRInput, input_calls, first_screen.
  match goal with
  | |- context [filter ?P (inputSources frame)] =>
      destruct (filter P (inputSources frame)) as [|source rest]
  end; cbn.
  { eexists. split; [reflexivity|]. by rewrite app_nil_r. }
  unfold mbind, M_bind, call, modify, spawn, catch.
  destruct (targetRayPose source) as [pose|]; cbn.
  2: { eexists. split; [reflexivity|]. done. }
  rewrite (placeModel_run _ s) by exact Hs. cbn. rewrite Hc.
  eexists. split; [reflexivity|]. cbn. by rewrite <- app_assoc.
Qed.

(** One turn of the loop, in a session that is set up. *)
Lemma render_view_run frame view (w : World)
    (r : WebGLRenderer) (c : PerspectiveCamera) (ret : Reticle) (s : XRSession) :
  renderer (app w) = Some r →
  camera (app w) = Some c →
  reticle (app w) = Some ret →
  session (app w) = Some s →
  ∃ w',
    render_view frame view w = Ok tt w' ∧
    calls w' = calls w ++ view_calls frame (matrixAutoUpdate c) view ∧
    renderer (app w') =
      Some (mkWebGLRenderer (autoClear r) (vr_enabled r)
              (vr_referenceSpaceType r) (vr_session r)
              (Some (view_viewport view)) (S (render_count r))) ∧
    camera (app w') = Some (view_camera (matrixAutoUpdate c) view) ∧
    is_some (reticle (app w')) = true ∧
    session (app w') = Some s.
Proof.
  intros Hr Hc Hret Hs. unfold render_view.
  unfold mbind at 1, M_bind at 1. unfold the at 1. rewrite Hr.
  unfold mbind, M_bind, the, gets, reads, assign, call, modify. cbn.
  rewrite Hc. cbn. rewrite Hret. cbn.
  match goal with
  | |- context [processXRInput frame ?w1] =>
      destruct (processXRInput_run frame w1 s
                  (view_camera (matrixAutoUpdate c) view))
        as (w2 & -> & Hcalls & Hr2 & Hc2 & Hret2 & Hs2);
        [exact Hs | reflexivity |]
  end.
  cbn in Hr2, Hc2, Hret2, Hs2. rewrite Hr2. cbn.
  eexists. split; [reflexivity|]. cbn.
  rewrite Hcalls, Hc2, Hret2, Hs2. cbn.
  unfold view_calls. rewrite <- !app_assoc. cbn. done.
Qed.

(** The whole loop. *)
Lemma views_run frame (vs : list XRView) (w : World)
    (r : WebGLRenderer) (c : PerspectiveCamera) (ret : Reticle) (s : XRSession) :
  renderer (app w) = Some r →
  camera (app w) = Some c →
  reticle (app w) = Some ret →
  session (app w) = Some s →
  ∃ w',
    for_of vs (render_view frame) w = Ok tt w' ∧
    calls w' =
      calls w ++ concat (view_calls frame (matrixAutoUpdate c) <$> vs) ∧
    renderer (app w') =
      Some (mkWebGLRenderer (autoClear r) (vr_enabled r)
              (vr_referenceSpaceType r) (vr_session r)
              (from_option (λ v, Some (view_viewport v)) (viewport r) (last vs))
              (render_count r + length vs)) ∧
    camera (app w') =
      Some (from_option (view_camera (matrixAutoUpdate c)) c (last vs)) ∧
    is_some (reticle (app w')) = true ∧
    session (app w') = Some s ∧
    stabilized_view w' = stabilized_view w.
Proof.
  revert w r c ret. induction vs as [|v vs IH]; intros w r c ret Hr Hc Hret Hs.
  - exists w. cbn. rewrite app_nil_r, Nat.add_0_r, Hr, Hc, Hret, Hs.
    by destruct r.
  - destruct (render_view_run frame v w r c ret s Hr Hc Hret Hs)
      as (w1 & Hrun & Hcalls & Hr1 & Hc1 & Hret1 & Hs1).
    destruct (reticle (app w1)) as [ret1|] eqn:Eret1; [|discriminate].
    destruct (IH w1 _ _ ret1 Hr1 Hc1 Eret1 Hs1)
      as (w2 & Hrun2 & Hcalls2 & Hr2 & Hc2 & Hret2 & Hs2 & Hst2).
    exists w2. cbn [for_of]. unfold mbind, M_bind. rewrite Hrun.
    split; [exact Hrun2|].
    split. { rewrite Hcalls2, Hcalls. cbn. by rewrite <- app_assoc. }
    split. { rewrite Hr2, last_cons. cbn.
             destruct (last vs); cbn; do 2 f_equal; lia. }
    split. { rewrite Hc2, last_cons. cbn. by destruct (last vs). }
    split; [exact Hret2|]. split; [exact Hs2|].
    rewrite Hst2.
    pose proof (render_view_stabilized frame v w) as Hv.
    rewrite Hrun in Hv. exact Hv.
Qed.

(** A frame in a session that is set up: whether it finishes, the calls
    it makes, and the renderer and camera it leaves. *)
Lemma onXRFrame_views time frame (w : World)
    (r : WebGLRenderer) (c : PerspectiveCamera) (ret : Reticle) (s : XRSession) :
  renderer (app w) = Some r →
  camera (app w) = Some c →
  reticle (app w) = Some ret →
  session (app w) = Some s →
  let res := onXRFrame time frame w in
  returned res = negb (pose_mismatch frame) ∧
  calls (world_of res) =
    calls w ++ pose_call frame :: RequestAnimationFrame ::
      (if has_pose frame
       then GetViewerPose ::
            concat (view_calls frame (matrixAutoUpdate c) <$> frame_views frame)
       else []) ∧
  renderer (app (world_of res)) =
    Some (mkWebGLRenderer (autoClear r) (vr_enabled r)
            (vr_referenceSpaceType r) (vr_session r)
            (from_option (λ v, Some (view_viewport v)) (viewport r)
               (last (frame_views frame)))
            (render_count r + length (frame_views frame))) ∧
  camera (app (world_of res)) =
    Some (from_option (view_camera (matrixAutoUpdate c)) c
            (last (frame_views frame))).
Proof.
  intros Hr Hc Hret Hs res. unfold res. rewrite (onXRFrame_run _ _ _ s Hs).
  unfold frame_views, pose_mismatch.
  destruct (has_pose frame) eqn:Hp.
  - unfold frame_work, mbind, M_bind, call, modify.
    destruct (viewerPose frame) as [vp|] eqn:Hvp; cbn.
    + destruct (views_run frame (views vp)
                  (with_calls (λ l, l ++ [GetViewerPose]) (rearmed frame w))
                  r c ret s Hr Hc Hret Hs)
        as (w' & -> & Hcalls & Hr' & Hc' & Hret' & _).
      rewrite mark_stabilized_run.
      destruct (reticle (app w')) as [ret'|]; [|discriminate].
      rewrite andb_false_r.
      destruct (visible ret' && negb (is_stabilized w'))%bool; cbn;
        rewrite Hcalls, Hr', Hc'; cbn; by rewrite <- !app_assoc.
    + unfold has_pose in Hp. rewrite Hvp in Hp.
      destruct (hasGetDevicePose frame); [|discriminate].
      rewrite Hp. cbn. rewrite Hr, Hc, Nat.add_0_r.
      split; [reflexivity|]. split; [by rewrite <- !app_assoc|].
      by destruct r.
  - cbn. rewrite Hr, Hc, Nat.add_0_r.
    split.
    { unfold has_pose in Hp.
      destruct (hasGetDevicePose frame); [by rewrite Hp|reflexivity]. }
    split; [by rewrite <- !app_assoc|]. by destruct r.
Qed.

End ViewByView.

Lemma ready_fields (w : World) :
  ready w = true →
  ∃ s r sc m c ret,
    session (app w) = Some s ∧ renderer (app w) = Some r ∧
    scene (app w) = Some sc ∧ model (app w) = Some m ∧
    camera (app w) = Some c ∧ reticle (app w) = Some ret.
Proof.
  unfold ready. rewrite !andb_true_iff.
  destruct (session (app w)) as [s|], (renderer (app w)) as [r|],
    (scene (app w)) as [sc|], (model (app w)) as [m|],
    (camera (app w)) as [c|], (reticle (app w)) as [ret|];
    intros H; try (exfalso; naive_solver).
  by exists s, r, sc, m, c, ret.
Qed.

(** X7. In any world the page can reach with a frame requested, the
    frame callback throws in one case only: the legacy [getDevicePose]
    gave a pose and [getViewerPose] gives null. Otherwise it runs to its
    end, and after the pose query and the request for the next frame it
    goes through the views in order, each time setting the viewport,
    updating the camera and the reticle, processing the input and
    rendering: the scene is rendered exactly once per view. *)
Theorem frame_runs_view_by_view {lib : Library}
    (time : float) (frame : XRFrame) (w : World) :
  reachable w →
  0 < outstanding FrameRequest w →
  let res := onXRFrame time frame w in
  ∃ c r,
    camera (app w) = Some c ∧ renderer (app w) = Some r ∧
    returned res = negb (pose_mismatch frame) ∧
    calls (world_of res) =
      calls w ++ pose_call frame :: RequestAnimationFrame ::
        (if has_pose frame
         then GetViewerPose ::
              concat (view_calls frame (matrixAutoUpdate c) <$>
                        frame_views frame)
         else []) ∧
    render_count <$> renderer (app (world_of res)) =
      Some (render_count r + length (frame_views frame))%nat.
Proof.
  intros Hreach Ho res.
  destruct (ready_fields w (pending_ready FrameRequest w Hreach eq_refl Ho))
    as (s & r & sc & m & c & ret & Hs & Hr & _ & _ & Hc & Hret).
  destruct (onXRFrame_views time frame w r c ret s Hr Hc Hret Hs)
    as (Hret' & Hcalls & Hr' & _).
  exists c, r. fold res in Hret', Hcalls, Hr'.
  split; [exact Hc|]. split; [exact Hr|]. split; [exact Hret'|].
  split; [exact Hcalls|]. by rewrite Hr'.
Qed.

(** The second frame of the sample session: one view, one tap. *)
Lemma frame_runs_view_by_view_witness :
  let w := reticle_shown in
  let res := onXRFrame (lib := Library_sample) 16 frame_tap w in
  ∃ c r,
    camera (app w) = Some c ∧ renderer (app w) = Some r ∧
    returned res = negb (pose_mismatch frame_tap) ∧
    calls (world_of res) =
      calls w ++ pose_call frame_tap :: RequestAnimationFrame ::
        (if has_pose frame_tap
         then GetViewerPose ::
              concat (view_calls (lib := Library_sample) frame_tap
                        (matrixAutoUpdate c) <$> frame_views frame_tap)
         else []) ∧
    render_count <$> renderer (app (world_of res)) =
      Some (render_count r + length (frame_views frame_tap))%nat.
Proof.
  apply (frame_runs_view_by_view (lib := Library_sample) 16 frame_tap
           reticle_shown).
  - unfold reticle_shown, in_session, enter_session, run. cbn [foldl].
    repeat (apply reachable_step; [|vm_compute; reflexivity]).
    apply reachable_boot.
  - vm_compute. lia.
Defined.

(** X8. In any world the page can reach with a frame requested, the
    camera and the viewport a frame leaves are those of its last view:
    the projection matrix is the view's, the camera matrix and world
    matrix are the inverse of the view's inverse transform, and the
    renderer's viewport is the view's. A frame without views, or without
    a pose, leaves camera and viewport as they were. *)
Theorem last_view_wins {lib : Library}
    (time : float) (frame : XRFrame) (w : World) :
  reachable w →
  0 < outstanding FrameRequest w →
  let w' := world_of (onXRFrame time frame w) in
  match last (frame_views frame) with
  | Some v =>
      ∃ c',
        camera (app w') = Some c' ∧
        projectionMatrix c' = Matrix4_fromArray (view_projectionMatrix v) ∧
        matrix c' =
          Matrix4_getInverse (Matrix4_fromArray (view_inverse_matrix v)) ∧
        matrixWorld c' = matrix c' ∧
        viewport <$> renderer (app w') = Some (Some (view_viewport v))
  | None =>
      camera (app w') = camera (app w) ∧
      viewport <$> renderer (app w') = viewport <$> renderer (app w)
  end.
Proof.
  intros Hreach Ho w'.
  destruct (ready_fields w (pending_ready FrameRequest w Hreach eq_refl Ho))
    as (s & r & sc & m & c & ret & Hs & Hr & _ & _ & Hc & Hret).
  destruct (onXRFrame_views time frame w r c ret s Hr Hc Hret Hs)
    as (_ & _ & Hr' & Hc').
  fold w' in Hr', Hc'. rewrite Hr', Hc', Hr, Hc.
  destruct (last (frame_views frame)) as [v|]; cbn.
  - eexists. split; [reflexivity|]. done.
  - done.
Qed.

(** A frame with two views: the second one stays. *)
Lemma last_view_wins_witness :
  let view2 :=
    mkXRView (translation 0 0 1) (translation 7 8 9) (mkViewport 400 0 400 600) in
  let frame := mkXRFrame false None (Some (mkXRViewerPose [view1; view2])) [] in
  let w' := world_of (onXRFrame (lib := Library_sample) 16 frame reticle_shown) in
  ∃ c',
    camera (app w') = Some c' ∧
    projectionMatrix c' = Matrix4_fromArray (translation 0 0 1) ∧
    matrix c' =
      Matrix4_getInverse (Library := Library_sample)
        (Matrix4_fromArray (translation 7 8 9)) ∧
    matrixWorld c' = matrix c' ∧
    viewport <$> renderer (app w') = Some (Some (mkViewport 400 0 400 600)).
Proof.
  intros view2 frame.
  apply (last_view_wins (lib := Library_sample) 16 frame reticle_shown).
  - unfold reticle_shown, in_session, enter_session, run. cbn [foldl].
    repeat (apply reachable_step; [|vm_compute; reflexivity]).
    apply reachable_boot.
  - vm_compute. lia.
Defined.

(** ** Counting requests *)


Lemma frame_work_requests_no_frame (work : list Call) :
  forallb is_frame_work work = true →
  filter (λ x, x = FrameRequest) (omap request_of work) = [].
Proof.
  induction work as [|c work IH]; [done|].
  cbn [forallb]. rewrite andb_true_iff. intros [Hc Hw].
  destruct c; try discriminate; cbn [omap list_omap request_of];
    rewrite ?filter_cons_False by done; by apply IH.
Qed.

(** X9. The frame loop neither dies nor multiplies: in any world the
    page can reach with a frame requested, a frame callback uses up one
    frame request and makes exactly one, so the number of pending frame
    requests after the callback is what it was before, whatever the
    frame holds and whether its work returns or throws. *)
Theorem frame_requests_conserved {lib : Library}
    (time : float) (frame : XRFrame) (w : World) :
  reachable w →
  0 < outstanding FrameRequest w →
  outstanding FrameRequest (step (AnimationFrame time frame) w) =
    outstanding FrameRequest w.
Proof.
  intros Hreach Ho.
  destruct (ready_fields w (pending_ready FrameRequest w Hreach eq_refl Ho))
    as (s & _ & _ & _ & _ & _ & Hs & _).
  destruct (onXRFrame_rearms time frame w s Hs) as ((work & Hc & Hw) & _).
  assert (Hcalls : calls (step (AnimationFrame time frame) w) =
                   calls w ++ pose_call frame :: RequestAnimationFrame :: work).
  { rewrite <- Hc. unfold step, spawn, catch. cbn.
    by destruct (onXRFrame time frame w). }
  assert (Hans : answered (step (AnimationFrame time frame) w) =
                 answered w ++ [FrameRequest]).
  { assert (H : respects (same answered) (onXRFrame time frame)).
    { unfold onXRFrame, frame_pose, frame_work, mark_stabilized, render_view,
        processXRInput, placeModel, tick, spawn, assign, call, classList_add.
      respects_split idtac;
        (let w := fresh "w" in apply respects_modify; intros w; reflexivity). }
    specialize (H w). unfold same in H.
    unfold step, spawn, catch. cbn.
    destruct (onXRFrame time frame w); cbn in H |- *; by rewrite H. }
  unfold outstanding in *. rewrite Hcalls, Hans.
  rewrite omap_app, !filter_app, !length_app.
  assert (Hq : request_of (pose_call frame) = None)
    by (unfold pose_call; by destruct (hasGetDevicePose frame)).
  cbn [omap list_omap]. rewrite Hq. cbn [request_of].
  rewrite filter_cons_True by done.
  rewrite (frame_work_requests_no_frame work Hw). cbn. case_decide; [|done]. cbn. lia.
Qed.

Lemma frame_requests_conserved_witness :
  outstanding FrameRequest
    (step (lib := Library_sample) (AnimationFrame 16 frame_tap) reticle_shown) =
  outstanding FrameRequest reticle_shown.
Proof.
  apply (frame_requests_conserved (lib := Library_sample) 16 frame_tap
           reticle_shown).
  - unfold reticle_shown, in_session, enter_session, run. cbn [foldl].
    repeat (apply reachable_step; [|vm_compute; reflexivity]).
    apply reachable_boot.
  - vm_compute. lia.
Defined.





(** ** The class on the body and the flag agree *)

Section Agreement.

Context {lib : Library}.

Lemma step_session_end_stabilized (w : World) :
  stabilized_view (step SessionEnd w) =
    if bool_decide (0 < end_listeners w)
    then (match renderer (app w) with
          | Some _ => Some false
          | None => stabilized (app w)
          end, false)
    else stabilized_view w.
Proof.
  unfold step, spawn, catch, dispatch. unfold mbind at 1, M_bind at 1.
  unfold reads at 1. case_bool_decide; [|reflexivity].
  unfold stabilized_view. f_equal.
  - unfold onXRSessionEnded.
    unfold mbind, M_bind, gets, reads, console_put, classList_remove, modify,
      assign, call.
    cbn. by destruct (renderer (app w)).
  - pose proof (onXRSessionEnded_drops_stabilized w) as Hd.
    by destruct (onXRSessionEnded w).
Qed.

(** The class agrees with the flag, and the flag is only set where the
    session's objects exist. *)
Lemma reachable_stabilized (w : World) :
  reachable w →
  has_class "stabilized" w = is_stabilized w ∧
  (is_stabilized w = true → ready w = true).
Proof.
  induction 1 as [nav|e w Hreach [IHc IHr] Hen].
  - pose proof (boot_not_stabilized nav) as Hb.
    apply (f_equal (λ v, (snd v, truthy (fst v)))) in Hb. cbn in Hb.
    injection Hb as Hc Hf.
    change (has_class "stabilized" (boot nav) = false) in Hc.
    change (is_stabilized (boot nav) = false) in Hf.
    rewrite Hc, Hf. done.
  - assert (Hview : ∀ v, stabilized_view (step e w) = v →
              has_class "stabilized" (step e w) = snd v ∧
              is_stabilized (step e w) = truthy (fst v)).
    { intros v <-. done. }
    pose proof (step_other_stabilized e w) as Hother.
    destruct e as [a| |a|a|time frame|o|r|].
    5: { assert (Hready : ready w = true).
         { apply (pending_ready FrameRequest w Hreach eq_refl).
           unfold enabled in Hen. cbn in Hen. by apply bool_decide_eq_true in Hen. }
         destruct (Hview _ (step_frame_stabilized time frame w)) as [Hc Hf].
         rewrite Hc, Hf. split; [|intros _; by apply step_ready].
         destruct (sees_reticle time frame w && negb (is_stabilized w))%bool;
           [reflexivity | exact IHc]. }
    7: { destruct (Hview _ (step_session_end_stabilized w)) as [Hc Hf].
         rewrite Hc, Hf. case_bool_decide; cbn.
         - destruct (renderer (app w)) eqn:Hr; cbn; [done|].
           destruct (is_stabilized w) eqn:Hs.
           + specialize (IHr eq_refl). unfold ready in IHr.
             rewrite Hr in IHr. cbn in IHr.
             rewrite andb_false_r in IHr. discriminate.
           + unfold is_stabilized in Hs. rewrite Hs. done.
         - split; [exact IHc|]. intros Hs. apply step_ready. by apply IHr. }
    all: destruct (Hview _ (Hother ltac:(intros t f Hx; discriminate Hx)
                                   ltac:(intros Hx; discriminate Hx)))
           as [Hc Hf];
         rewrite Hc, Hf; split; [exact IHc|];
         intros Hs; apply step_ready; by apply IHr.
Qed.

End Agreement.

(** X11. In every world the page can reach, the body has the
    "stabilized" class exactly when the application's [stabilized] flag
    is set: no sequence of frames, hit tests, session starts and session
    ends leaves the page showing one state and the application holding
    the other. *)
Theorem stabilized_class_matches_flag {lib : Library} (w : World) :
  reachable w →
  has_class "stabilized" w = is_stabilized w.
Proof. intros H. by destruct (reachable_stabilized w H). Qed.

(** After the sample session has stabilized and ended. *)
Lemma stabilized_class_matches_flag_witness :
  let w := step (lib := Library_sample) SessionEnd
             (run (lib := Library_sample) (take 3 session_events) in_session) in
  has_class "stabilized" w = is_stabilized w.
Proof.
  apply (stabilized_class_matches_flag (lib := Library_sample)).
  unfold in_session, session_events, enter_session, run. cbn [take foldl].
  repeat (apply reachable_step; [|vm_compute; reflexivity]).
  apply reachable_boot.
Defined.

(** ** The "ar" class *)

Lemma has_class_remove_false (c d : string) (w : World) :
  has_class c w = false →
  has_class c (with_classList (λ s, s ∖ {[d]}) w) = false.
Proof.
  unfold has_class. cbn. intros H. apply bool_decide_eq_false.
  apply bool_decide_eq_false in H. set_solver.
Qed.

Ltac keeps_no_ar :=
  let w := fresh "w" in
  let H := fresh "H" in
  apply respects_modify; intros w H;
  first [ exact H
        | rewrite has_class_add_other by discriminate; exact H
        | by apply has_class_remove_false ].

(** Only a granted session adds the "ar" class. *)
Lemma dispatch_no_ar {lib : Library} (e : Event) :
  (∀ s, e ≠ SessionSettled (Resolved s)) →
  respects (keeps (λ w, has_class "ar" w = false)) (dispatch e).
Proof.
  intros Hs.
  destruct e as [[b|err]| |[s|err]|[space|err]|time frame|outcome|r|]; cbn;
    try (by destruct (Hs s));
    unfold init_supported, init_unsupported, onEnterAR, onEnterAR_rejected,
      onSessionStarted_resumed, onXRFrame, frame_pose, frame_work,
      mark_stabilized, render_view, processXRInput, placeModel,
      placeModel_resumed, onXRSessionEnded, onNoXRDevice, tick, spawn, assign,
      console_put, call, classList_add, classList_remove;
    respects_split idtac; keeps_no_ar.
Qed.

(** X12. In every world the page can reach, if the body has the "ar"
    class then the session and the objects [onSessionStarted] creates
    (renderer, scene, model, camera, reticle) all exist: the page never
    shows the AR state without a session set up behind it. *)
Theorem ar_class_means_session {lib : Library} (w : World) :
  reachable w →
  has_class "ar" w = true →
  ready w = true.
Proof.
  induction 1 as [nav|e w Hreach IH Hen].
  - unfold boot, spawn, catch, init.
    destruct (xr nav && requestHitTestSource nav)%bool; vm_compute; discriminate.
  - intros Har. destruct (ready w) eqn:Hready; [by apply step_ready|].
    assert (Hno : has_class "ar" w = false).
    { destruct (has_class "ar" w); [by specialize (IH eq_refl)|reflexivity]. }
    assert (Hcase : (∃ s, e = SessionSettled (Resolved s)) ∨
                    (∀ s, e ≠ SessionSettled (Resolved s))).
    { destruct e as [a| |[s|err]|a|time frame|o|r|];
        first [left; eexists; reflexivity | right; intros s'; discriminate]. }
    destruct Hcase as [[s ->]|Hs].
    + unfold step, spawn, catch.
      pose proof (session_granted_ready s w) as Hr.
      by destruct (dispatch (SessionSettled (Resolved s)) w).
    + pose proof (dispatch_no_ar e Hs w Hno) as Hd.
      assert (Hstep : has_class "ar" (step e w) = false).
      { unfold step, spawn, catch. by destruct (dispatch e w). }
      rewrite Hstep in Har. discriminate.
Qed.

Lemma ar_class_means_session_witness :
  has_class "ar" in_session = true ∧ ready in_session = true.
Proof.
  split; [vm_compute; reflexivity|].
  apply (ar_class_means_session (lib := Library_sample)).
  - unfold in_session, enter_session, run. cbn [foldl].
    repeat (apply reachable_step; [|vm_compute; reflexivity]).
    apply reachable_boot.
  - vm_compute. reflexivity.
Defined.

(** ** The session is never cleared *)

Ltac keeps_session :=
  let w := fresh "w" in
  let H := fresh "H" in
  apply respects_modify; intros w H; first [exact H | reflexivity].

Lemma dispatch_keeps_session {lib : Library} (e : Event) :
  respects (keeps (λ w, is_some (session (app w)) = true)) (dispatch e).
Proof.
  destruct e as [[b|err]| |[s|err]|[space|err]|time frame|outcome|r|]; cbn;
    unfold init_supported, init_unsupported, onEnterAR, onEnterAR_granted,
      onEnterAR_rejected, onSessionStarted, onSessionStarted_resumed,
      onXRFrame, frame_pose, frame_work, mark_stabilized, render_view,
      processXRInput, placeModel, placeModel_resumed, onXRSessionEnded,
      onNoXRDevice, tick, spawn, assign, console_put, call, classList_add,
      classList_remove;
    respects_split idtac; keeps_session.
Qed.

Lemma step_keeps_session {lib : Library} (e : Event) (w : World) :
  is_some (session (app w)) = true →
  is_some (session (app (step e w))) = true.
Proof.
  intros H. pose proof (dispatch_keeps_session e w H) as Hd.
  unfold step, spawn, catch. by destruct (dispatch e w).
Qed.

(** X13. Once a session has been granted, [this.session] is never null
    again, whatever events follow: the end of the session unbinds the
    renderer from it but leaves [this.session] holding the ended
    session, so the null test at the head of [placeModel] does not stop
    a placement after the session has ended. *)
Theorem session_is_never_cleared {lib : Library}
    (es : list Event) (w : World) (r : WebGLRenderer) :
  is_some (session (app w)) = true →
  renderer (app w) = Some r →
  0 < end_listeners w →
  is_some (session (app (run es w))) = true ∧
  session (app (step SessionEnd w)) = session (app w) ∧
  vr_session <$> renderer (app (step SessionEnd w)) = Some None ∧
  ∃ ray, calls (world_of (placeModel (step SessionEnd w))) =
           calls (step SessionEnd w) ++ [RequestHitTest ray].
Proof.
  intros Hs Hr Hn. split.
  { clear Hr Hn. revert w Hs. unfold run.
    induction es as [|e es IH]; intros w Hs; [exact Hs|].
    cbn [foldl]. apply IH. by apply step_keeps_session. }
  assert (Hstep : app (step SessionEnd w) =
            set_stabilized (Some false)
              (set_renderer (Some (mkWebGLRenderer (autoClear r) (vr_enabled r)
                 (vr_referenceSpaceType r) None (viewport r) (render_count r)))
                 (app w))).
  { unfold step, spawn, catch, dispatch.
    unfold mbind at 1, M_bind at 1. unfold reads at 1.
    rewrite (bool_decide_eq_true_2 _ Hn).
    unfold onXRSessionEnded.
    unfold mbind, M_bind, gets, reads, console_put, classList_remove, modify,
      assign, call.
    cbn. rewrite Hr. reflexivity. }
  split; [by rewrite Hstep|]. split; [by rewrite Hstep|].
  destruct (session (app w)) as [s|] eqn:Es; [|discriminate].
  assert (Hs' : session (app (step SessionEnd w)) = Some s)
    by (by rewrite Hstep).
  rewrite (placeModel_run _ s Hs'). cbn. eauto.
Qed.

(** The sample session, ended. *)
Lemma session_is_never_cleared_witness :
  is_some (session (app (run (lib := Library_sample)
                           [SessionEnd; ClickEnterAR] in_session))) = true ∧
  session (app (step (lib := Library_sample) SessionEnd in_session)) =
    session (app in_session) ∧
  vr_session <$>
    renderer (app (step (lib := Library_sample) SessionEnd in_session)) =
    Some None ∧
  ∃ ray,
    calls (world_of (placeModel (lib := Library_sample)
                       (step (lib := Library_sample) SessionEnd in_session))) =
    calls (step (lib := Library_sample) SessionEnd in_session) ++
      [RequestHitTest ray].
Proof.
  apply (session_is_never_cleared (lib := Library_sample)
           [SessionEnd; ClickEnterAR] in_session
           (mkWebGLRenderer false true (Some "local") (Some 1%nat) None 0%nat)).
  - vm_compute. reflexivity.
  - vm_compute. reflexivity.
  - vm_compute. lia.
Defined.

(** ** A platform without support *)




(** ** The scene stays tidy *)

Lemma Scene_add_tidy (o : ObjectRef) (sc : Scene) :
  NoDup (children sc) → ReticleRef ∈ children sc →
  NoDup (children (Scene_add o sc)) ∧ ReticleRef ∈ children (Scene_add o sc).
Proof.
  intros Hnd Hin. unfold Scene_add. cbn. split.
  - apply NoDup_app. split; [by apply NoDup_filter|]. split.
    + intros x Hx Hx'. apply list_elem_of_filter in Hx as [Hne _].
      apply list_elem_of_singleton in Hx'. done.
    + apply NoDup_singleton.
  - apply elem_of_app. destruct (decide (ReticleRef = o)) as [<-|Hne].
    + right. by apply list_elem_of_singleton.
    + left. by apply list_elem_of_filter.
Qed.

Lemma Scene_add_again (o : ObjectRef) (sc : Scene) :
  Scene_add o (Scene_add o sc) = Scene_add o sc.
Proof.
  unfold Scene_add. cbn [children pivot]. f_equal.
  rewrite filter_app.
  rewrite (filter_cons_False _ o []) by (intros H; by apply H).
  rewrite filter_nil, app_nil_r. f_equal.
  induction (children sc) as [|c l IH]; [done|].
  destruct (decide (c ≠ o)) as [Hc|Hc].
  - rewrite (filter_cons_True _ c l) by done.
    by rewrite !filter_cons_True, IH by done.
  - by rewrite (filter_cons_False _ c l) by done.
Qed.

Ltac keeps_scene :=
  let w := fresh "w" in
  let H := fresh "H" in
  let sc := fresh "sc" in
  apply respects_modify; intros w H sc; exact (H sc).

Section Tidy.

Context {lib : Library}.

Lemma onSessionStarted_tidy : respects (keeps scene_tidy) onSessionStarted.
Proof.
  intros w H. unfold onSessionStarted.
  unfold mbind, M_bind, assign, call, classList_add, modify, the, gets, reads.
  cbn. destruct (session (app w)); cbn; [|exact H].
  intros sc [= <-]. cbn. split; [apply NoDup_singleton|].
  by apply list_elem_of_singleton.
Qed.

Lemma placeModel_resumed_tidy outcome :
  respects (keeps scene_tidy) (placeModel_resumed outcome).
Proof.
  intros w H. unfold placeModel_resumed.
  unfold mbind, M_bind, mret, M_ret, assign, console_put, modify, the, gets,
    reads.
  destruct outcome as [[|hit rest]|e]; cbn; try exact H.
  destruct (model (app w)) as [m|]; cbn; [|exact H].
  destruct (scene (app w)) as [sc|] eqn:Hsc; cbn; [|exact H].
  destruct (H sc Hsc) as [Hnd Hin].
  destruct (camera (app w)); cbn;
    [destruct (pivot sc); cbn|];
    intros sc' Hsc'; cbn in Hsc'; injection Hsc' as <-;
    by apply Scene_add_tidy.
Qed.

Lemma dispatch_tidy e : respects (keeps scene_tidy) (dispatch e).
Proof.
  pose proof onSessionStarted_tidy. pose proof placeModel_resumed_tidy.
  destruct e as [[b|err]| |[s|err]|[space|err]|time frame|outcome|r|]; cbn;
    try done;
    unfold init_supported, init_unsupported, onEnterAR, onEnterAR_granted,
      onEnterAR_rejected, onSessionStarted_resumed,
      onXRFrame, frame_pose, frame_work, mark_stabilized, render_view,
      processXRInput, placeModel, onXRSessionEnded,
      onNoXRDevice, tick, spawn, assign, console_put, call, classList_add,
      classList_remove;
    respects_split ltac:(assumption); keeps_scene.
Qed.

Lemma reachable_tidy w : reachable w → scene_tidy w.
Proof.
  induction 1 as [nav|e w _ IH _].
  - intros sc. unfold boot, spawn, catch, init.
    destruct (xr nav && requestHitTestSource nav)%bool; cbn; discriminate.
  - pose proof (dispatch_tidy e w IH) as Hd.
    unfold step, spawn, catch. by destruct (dispatch e w).
Qed.

End Tidy.

(** X15. In every world the page can reach, the scene lists no object
    twice and always contains the reticle: however often the model is
    placed, and however many sessions are started, [scene.add] never
    leaves a duplicate child and nothing removes the reticle. *)
Theorem scene_stays_tidy {lib : Library} (w : World) (sc : Scene) :
  reachable w →
  scene (app w) = Some sc →
  NoDup (children sc) ∧ ReticleRef ∈ children sc.
Proof. intros Hr Hsc. by apply (reachable_tidy w Hr). Qed.

(** The sample session after two placements. *)
Lemma scene_stays_tidy_witness :
  let w :=
    run (lib := Library_sample)
      [AnimationFrame 16 frame_tap; AnimationFrame 32 frame_tap;
       HitTestSettled (HitTestResolved [hit1]);
       HitTestSettled (HitTestResolved [hit2; hit1])]
      in_session in
  scene (app w) = Some (mkScene [ReticleRef; ModelRef] None) ∧
  NoDup [ReticleRef; ModelRef] ∧ ReticleRef ∈ [ReticleRef; ModelRef].
Proof.
  intros w. split; [vm_compute; reflexivity|].
  apply (scene_stays_tidy (lib := Library_sample) w
           (mkScene [ReticleRef; ModelRef] None)).
  - unfold w, in_session, enter_session, run. cbn [foldl].
    repeat (apply reachable_step; [|vm_compute; reflexivity]).
    apply reachable_boot.
  - vm_compute. reflexivity.
Defined.

(** ** Placing again *)

(** X16. Placement is idempotent. In any world the page can reach with a
    hit test pending, once a list of hits has been placed, placing any
    list with the same first hit again returns normally and changes
    nothing: the model keeps its position and orientation and stays a
    single child of the scene. *)
Theorem placing_again_changes_nothing {lib : Library}
    (w : World) (hit : XRHitResult) (rest rest' : list XRHitResult) :
  reachable w →
  0 < outstanding HitTestRequest w →
  let w1 := world_of (placeModel_resumed (HitTestResolved (hit :: rest)) w) in
  placeModel_resumed (HitTestResolved (hit :: rest')) w1 = Ok tt w1.
Proof.
  intros Hreach Ho w1.
  destruct (ready_fields w (pending_ready HitTestRequest w Hreach eq_refl Ho))
    as (s & r & sc & m & c & ret & _ & _ & Hsc & Hm & Hc & _).
  pose proof (reachable_no_pivot w Hreach sc Hsc) as Hp.
  pose proof (placeModel_resumed_places w hit m sc c Hm Hsc Hp Hc rest) as H1.
  cbv zeta in H1. unfold w1. rewrite H1. cbn [world_of].
  match goal with
  | |- placeModel_resumed _ ?W = _ =>
      rewrite (placeModel_resumed_places W hit _ (Scene_add ModelRef sc) c
                 eq_refl eq_refl Hp Hc rest')
  end.
  f_equal. unfold with_app. cbn. f_equal.
  unfold set_model, set_scene. cbn. by rewrite Scene_add_again.
Qed.

Lemma placing_again_changes_nothing_witness :
  let w := step (lib := Library_sample) (AnimationFrame 16 frame_tap)
             reticle_shown in
  let w1 := world_of (placeModel_resumed (lib := Library_sample)
                        (HitTestResolved [hit1; hit2]) w) in
  placeModel_resumed (lib := Library_sample) (HitTestResolved [hit1]) w1 =
    Ok tt w1.
Proof.
  intros w.
  apply (placing_again_changes_nothing (lib := Library_sample) w hit1
           [hit2] []).
  - unfold w, reticle_shown, in_session, enter_session, run. cbn [foldl].
    repeat (apply reachable_step; [|vm_compute; reflexivity]).
    apply reachable_boot.
  - vm_compute. lia.
Defined.

End XRSpec.
